(** * Verification of the Vault credentials provider

    Shallow embedding of [service/internal/credentials/vault.go]: the
    authorization-header parser, the policy synthesizer and the
    [VaultProvider] methods, run against an arbitrary Vault backend whose
    calls are recorded in order. *)

From Stdlib Require Import String Ascii ZArith List Bool Lia.
From stdpp Require Import gmap strings list fin_maps.
Import ListNotations.
Local Open Scope string_scope.
Local Open Scope Z_scope.

(** ** Go values *)

(** A Go slice is either [nil] or a (possibly empty) sequence; JSON
    rendering and [== nil] tell the two apart, indexing and [range] do not. *)
Module Slice.
Inductive t (A : Type) : Type :=
| nil_slice
| make (elems : list A).
Arguments nil_slice {A}.
Arguments make {A} elems.

Definition elements {A} (s : t A) : list A :=
  match s with
  | nil_slice => []
  | make l => l
  end.

Definition is_nil {A} (s : t A) : bool :=
  match s with
  | nil_slice => true
  | make _ => false
  end.

(** [append(s, x)]: the result is never nil. *)
Definition append {A} (s : t A) (x : A) : t A := make (elements s ++ [x]).
End Slice.

#[local] Set Warnings "-register-all".

(** The dynamic values an [interface{}] holds in this program: what the
    provider writes ([string], [int], [bool], [[]string]) and what Vault's
    decoder hands back ([nil], [string], [bool], [[]interface{}]). *)
Inductive value : Type :=
| VNil
| VBool (b : bool)
| VInt (n : Z)
| VString (s : string)
| VStrings (l : Slice.t string)
| VList (l : list value).

(** The parts of [vault.SecretAuth] and [vault.Secret] the provider reads
    ([Data] is a [map[string]interface{}]; a nil map reads like an empty one). *)
Record SecretAuth : Type := { ClientToken : string }.

Record vault_Secret : Type := {
  Data : gmap string value;
  Auth : option SecretAuth
}.

(** ** Errors and panics *)

(** [ErrNotFound] is the package's sentinel; [errors_New] stands for a
    fresh error made here by [errors.New] or by [fmt.Errorf] without [%w];
    [VaultError] is an error value handed over by the backend. *)
Inductive error : Type :=
| ErrNotFound
| errors_New (msg : string)
| VaultError (msg : string).

Definition Error (e : error) : string :=
  match e with
  | ErrNotFound => "item not found"
  | errors_New msg => msg
  | VaultError msg => msg
  end.

(** [errors.Is(err, ErrNotFound)]: identity with the sentinel (none of the
    errors above wraps another). *)
Definition errors_Is_ErrNotFound (err : option error) : bool :=
  match err with
  | Some ErrNotFound => true
  | _ => false
  end.

(** Run-time panics of the Go code. *)
Inductive panic : Type :=
| NilDereference
| TypeAssertion
| IndexOutOfRange.

Inductive outcome (A : Type) : Type :=
| Done (a : A)
| Panic (p : panic).
Arguments Done {A} a.
Arguments Panic {A} p.

(** ** The [strings] and [fmt] functions the file uses *)

Definition dq : string := String "034"%char EmptyString.

Module strings.
Fixpoint HasPrefix (s prefix : string) {struct prefix} : bool :=
  match prefix with
  | EmptyString => true
  | String c prefix' =>
      match s with
      | EmptyString => false
      | String d s' => if Ascii.eqb c d then HasPrefix s' prefix' else false
      end
  end.

(** [s[n:]] and [s[:n]]. *)
Fixpoint from (n : nat) (s : string) : string :=
  match n, s with
  | S n', String _ s' => from n' s'
  | _, _ => s
  end.

Fixpoint upto (n : nat) (s : string) : string :=
  match n, s with
  | S n', String c s' => String c (upto n' s')
  | _, _ => EmptyString
  end.

(** Index of the first instance of [substr] in [s], or [-1]. *)
Fixpoint Index (s substr : string) : Z :=
  if HasPrefix s substr then 0
  else match s with
       | EmptyString => -1
       | String _ s' =>
           let m := Index s' substr in
           if m <? 0 then -1 else 1 + m
       end.

(** The loop of [genSplit] for a non-empty separator: at most [n]
    further cuts, the rest of the string is the last element. *)
Fixpoint genSplit (n : nat) (s sep : string) : list string :=
  match n with
  | O => [s]
  | S n' =>
      let m := Index s sep in
      if m <? 0 then [s]
      else upto (Z.to_nat m) s
             :: genSplit n' (from (Z.to_nat m + String.length sep) s) sep
  end.

(** [strings.SplitN(s, sep, n)] for [n >= 0] and a non-empty [sep]. *)
Definition SplitN (s sep : string) (n : nat) : Slice.t string :=
  match n with
  | O => Slice.nil_slice
  | S n' => Slice.make (genSplit n' s sep)
  end.

(** [strings.Replace(s, old, new, n)] for [n >= 0] and a non-empty
    [old]: the first [n] instances of [old] are replaced. *)
Fixpoint Replace (s old new : string) (n : nat) : string :=
  match n with
  | O => s
  | S n' =>
      let j := Index s old in
      if j <? 0 then s
      else upto (Z.to_nat j) s ++ new
             ++ Replace (from (Z.to_nat j + String.length old) s) old new n'
  end.

(** Whether [substr] occurs in [s]. *)
Definition Contains (s substr : string) : bool := 0 <=? Index s substr.
End strings.

(** ** Authorization *)

Record Authorization : Type := {
  Provider : string;
  Key : string;
  Secret : string
}.

Definition NewAuthorization (authorizationHeader : string)
  : outcome (option Authorization * option error) :=
  let auth := Slice.elements (strings.SplitN authorizationHeader ":" 3) in
  if existsb (fun i => String.eqb i "") auth then
    Done (None, Some (errors_New "invalid authorization header provided"))
  else if (Z.of_nat (length auth) <? 3) then
    Done (None, Some (errors_New "invalid authorization header provided"))
  else
    match auth !! 0%nat, auth !! 1%nat, auth !! 2%nat with
    | Some p, Some k, Some s =>
        Done (Some {| Provider := p; Key := k; Secret := s |}, None)
    | _, _, _ => Panic IndexOutOfRange
    end.

Definition IsAdmin (a : Authorization) : bool := String.eqb (Key a) "admin".

Definition AuthorizedAdmin (a : Authorization) (adminSecret : string) : bool :=
  IsAdmin a && String.eqb (Secret a) adminSecret.

(** ** The Vault client *)

(** A backend call returns Go's pair of a [*vault.Secret] and an [error];
    either component may be nil.  The error values of the Vault API are of
    its own types, never one made by this package: the client hands over
    their message, and the provider sees them as [VaultError]. *)
Definition api_response : Type := option vault_Secret * option string.
Definition response : Type := option vault_Secret * option error.

Definition from_api (r : api_response) : response :=
  (fst r, VaultError <$> snd r).

(** The two interfaces of the file, over a backend state [S]. *)
Record vaultLogical (S : Type) : Type := {
  Delete : string -> S -> api_response * S;
  List : string -> S -> api_response * S;
  Read : string -> S -> api_response * S;
  Write : string -> gmap string value -> S -> api_response * S
}.
Arguments Delete {S} _ _ _.
Arguments List {S} _ _ _.
Arguments Read {S} _ _ _.
Arguments Write {S} _ _ _ _.

Record vaultSys (S : Type) : Type := {
  DeletePolicy : string -> S -> option string * S;
  PutPolicy : string -> string -> S -> option string * S
}.
Arguments DeletePolicy {S} _ _ _.
Arguments PutPolicy {S} _ _ _ _.

Record vault_Client (S : Type) : Type := {
  Logical : vaultLogical S;
  Sys : vaultSys S
}.
Arguments Logical {S} _.
Arguments Sys {S} _.

(** Every call that reaches the backend, with its arguments. *)
Inductive Call : Type :=
| CallDelete (path : string)
| CallList (path : string)
| CallRead (path : string)
| CallWrite (path : string) (data : gmap string value)
| CallDeletePolicy (name : string)
| CallPutPolicy (name rules : string).

(** What a method can change: the backend, the sequence of calls issued so
    far, and the lines printed on standard output. *)
Record World (S : Type) : Type := {
  vault : S;
  calls : list Call;
  stdout : list string
}.
Arguments vault {S} _.
Arguments calls {S} _.
Arguments stdout {S} _.

Definition M (S A : Type) : Type := World S -> outcome A * World S.

Definition ret {S A} (a : A) : M S A := fun w => (Done a, w).

Definition bind {S A B} (m : M S A) (k : A -> M S B) : M S B :=
  fun w =>
    match m w with
    | (Done a, w') => k a w'
    | (Panic p, w') => (Panic p, w')
    end.

Definition throw {S A} (p : panic) : M S A := fun w => (Panic p, w).

Declare Scope go_scope.
Delimit Scope go_scope with go.
Notation "x <- m ;; k" := (bind m (fun x => k))
  (at level 100, m at next level, right associativity) : go_scope.

Section Backend.
Context {S : Type}.

Definition issue {A} (c : Call) (f : S -> A * S) : M S A :=
  fun w =>
    let '(r, s) := f (vault w) in
    (Done r, {| vault := s; calls := calls w ++ [c]; stdout := stdout w |}).

Definition fmt_Println (line : string) : M S unit :=
  fun w =>
    (Done tt, {| vault := vault w; calls := calls w;
                 stdout := stdout w ++ [line] |}).

Definition lift {A} (o : outcome A) : M S A := fun w => (o, w).
End Backend.

(** Unchecked dynamic reads: [m[k]] on a map (nil interface when the key is
    absent), the type assertions [x.(string)] and [x.([]interface{})], and
    [l[i]]. *)
Definition map_index (m : gmap string value) (k : string) : value :=
  default VNil (m !! k).

Definition assert_string (x : value) : outcome string :=
  match x with
  | VString s => Done s
  | _ => Panic TypeAssertion
  end.

Definition assert_slice (x : value) : outcome (list value) :=
  match x with
  | VList l => Done l
  | _ => Panic TypeAssertion
  end.

Definition slice_index (l : list value) (i : nat) : outcome value :=
  match l !! i with
  | Some x => Done x
  | None => Panic IndexOutOfRange
  end.

(** ** Requests and constants *)

Record TargetProperties : Type := {
  CredentialType : string;
  PolicyArns : Slice.t string;
  RoleArn : string
}.

Record CreateTargetRequest : Type := {
  Name : string;
  Properties : TargetProperties;
  Type_ : string
}.

Definition vaultAppRolePrefix : string := "auth/approle/role".
Definition vaultProjectPrefix : string := "argo-cloudops-projects".
Definition vaultSecretTTL : string := "8776h".
Definition vaultTokenMaxTTL : string := "10m".
Definition vaultTokenNumUses : Z := 3.

Definition genProjectAppRole (name : string) : string :=
  vaultAppRolePrefix ++ "/" ++ vaultProjectPrefix ++ "-" ++ name.

Definition defaultVaultReadonlyPolicyAWS (projectName : string) : string :=
  "path " ++ dq ++ "aws/sts/argo-cloudops-projects-" ++ projectName
    ++ "-target-*" ++ dq ++ " { capabilities = [" ++ dq ++ "read" ++ dq ++ "] }".

(** ** The provider *)

Record VaultProvider (S : Type) : Type := {
  roleID : string;
  secretID : string;
  vaultLogicalSvc : vaultLogical S;
  vaultSysSvc : vaultSys S
}.
Arguments roleID {S} _.
Arguments secretID {S} _.
Arguments vaultLogicalSvc {S} _.
Arguments vaultSysSvc {S} _.

Section Provider.
Context {S : Type}.
Local Open Scope go_scope.

Definition NewVaultProvider (svc : vault_Client S) (a : Authorization)
  : VaultProvider S * option error :=
  ({| vaultLogicalSvc := Logical svc;
      vaultSysSvc := Sys svc;
      roleID := Key a;
      secretID := Secret a |}, None).

(** The instrumented calls on the two services of a provider. *)
Definition logical_Delete (v : VaultProvider S) (path : string) : M S response :=
  r <- issue (CallDelete path) (Delete (vaultLogicalSvc v) path) ;;
  ret (from_api r).
Definition logical_List (v : VaultProvider S) (path : string) : M S response :=
  r <- issue (CallList path) (List (vaultLogicalSvc v) path) ;;
  ret (from_api r).
Definition logical_Read (v : VaultProvider S) (path : string) : M S response :=
  r <- issue (CallRead path) (Read (vaultLogicalSvc v) path) ;;
  ret (from_api r).
Definition logical_Write (v : VaultProvider S) (path : string)
           (data : gmap string value) : M S response :=
  r <- issue (CallWrite path data) (Write (vaultLogicalSvc v) path data) ;;
  ret (from_api r).
Definition sys_DeletePolicy (v : VaultProvider S) (name : string)
  : M S (option error) :=
  e <- issue (CallDeletePolicy name) (DeletePolicy (vaultSysSvc v) name) ;;
  ret (VaultError <$> e).
Definition sys_PutPolicy (v : VaultProvider S) (name rules : string)
  : M S (option error) :=
  e <- issue (CallPutPolicy name rules) (PutPolicy (vaultSysSvc v) name rules) ;;
  ret (VaultError <$> e).

Definition isAdmin (v : VaultProvider S) : bool := String.eqb (roleID v) "admin".

Definition createPolicyState (v : VaultProvider S) (name policy : string)
  : M S (option error) :=
  sys_PutPolicy v (vaultProjectPrefix ++ "-" ++ name) policy.

Definition deletePolicyState (v : VaultProvider S) (name : string)
  : M S (option error) :=
  sys_DeletePolicy v (vaultProjectPrefix ++ "-" ++ name).

Definition writeProjectState (v : VaultProvider S) (name : string)
  : M S (option error) :=
  let options : gmap string value :=
    {[ "secret_id_ttl" := VString vaultSecretTTL;
       "token_max_ttl" := VString vaultTokenMaxTTL;
       "token_no_default_policy" := VString "true";
       "token_num_uses" := VInt vaultTokenNumUses;
       "token_policies" := VString (vaultProjectPrefix ++ "-" ++ name) ]} in
  r <- logical_Write v (genProjectAppRole name) options ;;
  match snd r with
  | Some err => ret (Some err)
  | None => ret None
  end.

Definition readRoleID (v : VaultProvider S) (appRoleName : string)
  : M S (string * option error) :=
  r <- logical_Read v (genProjectAppRole appRoleName ++ "/role-id") ;;
  match r with
  | (_, Some err) => ret ("", Some err)
  | (None, None) => throw NilDereference
  | (Some secret, None) =>
      s <- lift (assert_string (map_index (Data secret) "role_id")) ;;
      ret (s, None)
  end.

Definition readSecretID (v : VaultProvider S) (appRoleName : string)
  : M S (string * option error) :=
  let options : gmap string value := {[ "force" := VBool true ]} in
  r <- logical_Write v (genProjectAppRole appRoleName ++ "/secret-id") options ;;
  match r with
  | (_, Some err) => ret ("", Some err)
  | (None, None) => throw NilDereference
  | (Some secret, None) =>
      s <- lift (assert_string (map_index (Data secret) "secret_id")) ;;
      ret (s, None)
  end.

Definition CreateProject (v : VaultProvider S) (name : string)
  : M S (string * string * option error) :=
  if negb (isAdmin v) then
    ret ("", "", Some (errors_New "admin credentials must be used to create project"))
  else
    let policy := defaultVaultReadonlyPolicyAWS name in
    err <- createPolicyState v name policy ;;
    match err with
    | Some e => ret ("", "", Some e)
    | None =>
        err <- writeProjectState v name ;;
        match err with
        | Some e => ret ("", "", Some e)
        | None =>
            r <- readSecretID v name ;;
            match r with
            | (_, Some e) => ret ("", "", Some e)
            | (secretID, None) =>
                r <- readRoleID v name ;;
                match r with
                | (_, Some e) => ret ("", "", Some e)
                | (roleID, None) => ret (roleID, secretID, None)
                end
            end
        end
    end.

Definition CreateTarget (v : VaultProvider S) (projectName : string)
           (ctr : CreateTargetRequest) : M S (option error) :=
  if negb (isAdmin v) then
    ret (Some (errors_New "admin credentials must be used to create target"))
  else
    let targetName := Name ctr in
    let credentialType := CredentialType (Properties ctr) in
    let policyArns := PolicyArns (Properties ctr) in
    let roleArn := RoleArn (Properties ctr) in
    let options : gmap string value :=
      {[ "role_arns" := VString roleArn;
         "credential_type" := VString credentialType;
         "policy_arns" := VStrings policyArns ]} in
    let path := "aws/roles/" ++ vaultProjectPrefix ++ "-" ++ projectName
                  ++ "-target-" ++ targetName in
    r <- logical_Write v path options ;;
    ret (snd r).

Definition DeleteProject (v : VaultProvider S) (name : string)
  : M S (option error) :=
  if negb (isAdmin v) then
    ret (Some (errors_New "admin credentials must be used to delete project"))
  else
    err <- deletePolicyState v name ;;
    match err with
    | Some e => ret (Some (errors_New ("vault delete project error: " ++ Error e)))
    | None =>
        r <- logical_Delete v (genProjectAppRole name) ;;
        match snd r with
        | Some e => ret (Some (errors_New ("vault delete project error: " ++ Error e)))
        | None => ret None
        end
    end.

Definition DeleteTarget (v : VaultProvider S) (projectName targetName : string)
  : M S (option error) :=
  if negb (isAdmin v) then
    ret (Some (errors_New "admin credentials must be used to delete target"))
  else
    let path := "aws/roles/" ++ vaultProjectPrefix ++ "-" ++ projectName
                  ++ "-target-" ++ targetName in
    r <- logical_Delete v path ;;
    ret (snd r).

Definition GetProject (v : VaultProvider S) (projectName : string)
  : M S (string * option error) :=
  r <- logical_Read v (genProjectAppRole projectName) ;;
  match r with
  | (_, Some err) =>
      ret ("", Some (errors_New ("vault get project error: " ++ Error err)))
  | (None, None) => ret ("", Some ErrNotFound)
  | (Some _, None) =>
      ret ("{" ++ dq ++ "name" ++ dq ++ ":" ++ dq ++ projectName ++ dq ++ "}", None)
  end.

(** The [range] loop of [GetTarget]: every element is asserted to be a
    string and appended. *)
Fixpoint GetTarget_policies (policies : Slice.t string) (policyArns : list value)
  : outcome (Slice.t string) :=
  match policyArns with
  | [] => Done policies
  | x :: rest =>
      match assert_string x with
      | Done s => GetTarget_policies (Slice.append policies s) rest
      | Panic p => Panic p
      end
  end.

Definition GetTarget (v : VaultProvider S) (projectName targetName : string)
  : M S (TargetProperties * option error) :=
  let zero := {| CredentialType := ""; PolicyArns := Slice.nil_slice; RoleArn := "" |} in
  if negb (isAdmin v) then
    ret (zero, Some (errors_New "admin credentials must be used to get target information"))
  else
    r <- logical_Read v ("aws/roles/argo-cloudops-projects-" ++ projectName
                           ++ "-target-" ++ targetName) ;;
    match r with
    | (_, Some err) =>
        ret (zero, Some (errors_New ("vault get target error: " ++ Error err)))
    | (None, None) => ret (zero, Some (errors_New "target not found"))
    | (Some sec, None) =>
        roleArns <- lift (assert_slice (map_index (Data sec) "role_arns")) ;;
        first <- lift (slice_index roleArns 0) ;;
        roleArn <- lift (assert_string first) ;;
        policyArns <- lift (assert_slice (map_index (Data sec) "policy_arns")) ;;
        credentialType <- lift (assert_string (map_index (Data sec) "credential_type")) ;;
        policies <- lift (GetTarget_policies Slice.nil_slice policyArns) ;;
        ret ({| CredentialType := credentialType;
                RoleArn := roleArn;
                PolicyArns := policies |}, None)
    end.

Definition GetToken (v : VaultProvider S) : M S (string * option error) :=
  if isAdmin v then
    ret ("", Some (errors_New "admin credentials cannot be used to get tokens"))
  else
    let options : gmap string value :=
      {[ "role_id" := VString (roleID v);
         "secret_id" := VString (secretID v) ]} in
    r <- logical_Write v "auth/approle/login" options ;;
    match r with
    | (_, Some err) =>
        _ <- fmt_Println (Error err) ;;
        ret ("", Some err)
    | (None, None) => throw NilDereference
    | (Some sec, None) =>
        match Auth sec with
        | None => throw NilDereference
        | Some auth => ret (ClientToken auth, None)
        end
    end.

(** The [range] loop of [ListTargets]. *)
Fixpoint ListTargets_loop (project : string) (list_ : Slice.t string)
         (keys : list value) : outcome (Slice.t string) :=
  match keys with
  | [] => Done list_
  | target :: rest =>
      match assert_string target with
      | Panic p => Panic p
      | Done value_ =>
          let prefix := "argo-cloudops-projects-" ++ project ++ "-target-" in
          if strings.HasPrefix value_ prefix then
            ListTargets_loop project
              (Slice.append list_ (strings.Replace value_ prefix "" 1)) rest
          else ListTargets_loop project list_ rest
      end
  end.

Definition ListTargets (v : VaultProvider S) (project : string)
  : M S (Slice.t string * option error) :=
  if negb (isAdmin v) then
    ret (Slice.nil_slice,
         Some (errors_New "admin credentials must be used to list targets"))
  else
    r <- logical_List v "aws/roles/" ;;
    match r with
    | (_, Some err) =>
        ret (Slice.nil_slice, Some (errors_New ("vault list error: " ++ Error err)))
    | (None, None) => ret (Slice.make [], None)
    | (Some sec, None) =>
        keys <- lift (assert_slice (map_index (Data sec) "keys")) ;;
        list_ <- lift (ListTargets_loop project (Slice.make []) keys) ;;
        ret (list_, None)
    end.

Definition ProjectExists (v : VaultProvider S) (name : string)
  : M S (bool * option error) :=
  r <- GetProject v name ;;
  let '(p, err) := r in
  if errors_Is_ErrNotFound err then ret (false, None)
  else
    match err with
    | Some e => ret (false, Some e)
    | None => ret (negb (String.eqb p ""), None)
    end.

Definition TargetExists (v : VaultProvider S) (name : string)
  : M S (bool * option error) :=
  ret (false, None).
End Provider.

(** ** The [Provider] interface *)

(** One constructor per method of the interface, indexed by the Go result
    tuple of the method. *)
Inductive Op : Type -> Type :=
| OpCreateProject (name : string) : Op (string * string * option error)
| OpCreateTarget (projectName : string) (ctr : CreateTargetRequest) : Op (option error)
| OpDeleteProject (name : string) : Op (option error)
| OpDeleteTarget (projectName targetName : string) : Op (option error)
| OpGetProject (projectName : string) : Op (string * option error)
| OpGetTarget (projectName targetName : string) : Op (TargetProperties * option error)
| OpGetToken : Op (string * option error)
| OpListTargets (project : string) : Op (Slice.t string * option error)
| OpProjectExists (name : string) : Op (bool * option error)
| OpTargetExists (name : string) : Op (bool * option error).

Definition invoke {S A} (v : VaultProvider S) (op : Op A) : M S A :=
  match op in Op A return M S A with
  | OpCreateProject name => CreateProject v name
  | OpCreateTarget projectName ctr => CreateTarget v projectName ctr
  | OpDeleteProject name => DeleteProject v name
  | OpDeleteTarget projectName targetName => DeleteTarget v projectName targetName
  | OpGetProject projectName => GetProject v projectName
  | OpGetTarget projectName targetName => GetTarget v projectName targetName
  | OpGetToken => GetToken v
  | OpListTargets project => ListTargets v project
  | OpProjectExists name => ProjectExists v name
  | OpTargetExists name => TargetExists v name
  end.

(** The [error] component of a method's result. *)
Definition err_of {A} (op : Op A) : A -> option error :=
  match op in Op A return A -> option error with
  | OpCreateProject _ => snd
  | OpCreateTarget _ _ => fun e => e
  | OpDeleteProject _ => fun e => e
  | OpDeleteTarget _ _ => fun e => e
  | OpGetProject _ => snd
  | OpGetTarget _ _ => snd
  | OpGetToken => snd
  | OpListTargets _ => snd
  | OpProjectExists _ => snd
  | OpTargetExists _ => snd
  end.

(** The errors the provider raises for the wrong class of credentials:
    those it makes itself with a message about admin credentials. *)
Definition PermissionDenied (e : error) : bool :=
  match e with
  | errors_New msg => strings.HasPrefix msg "admin credentials "
  | _ => false
  end.

(** The methods that start with the [!v.isAdmin()] guard. *)
Definition admin_gated {A} (op : Op A) : bool :=
  match op with
  | OpCreateProject _ | OpCreateTarget _ _ | OpDeleteProject _
  | OpDeleteTarget _ _ | OpGetTarget _ _ | OpListTargets _ => true
  | _ => false
  end.

(** The operations the specification lists as admin-only. *)
Definition admin_only_in_spec {A} (op : Op A) : bool :=
  match op with
  | OpCreateProject _ | OpGetProject _ | OpProjectExists _ | OpDeleteProject _
  | OpCreateTarget _ _ | OpGetTarget _ _ | OpDeleteTarget _ _
  | OpListTargets _ => true
  | _ => false
  end.

(** A run ended with a permission error. *)
Definition denied {S A} (op : Op A) (r : outcome A * World S) : bool :=
  match fst r with
  | Done a =>
      match err_of op a with
      | Some e => PermissionDenied e
      | None => false
      end
  | Panic _ => false
  end.

(** A run failed with a permission error and left the world as it was: no
    backend call, no output. *)
Definition fails_before_backend {S A} (v : VaultProvider S) (op : Op A)
           (w : World S) : Prop :=
  exists a e, invoke v op w = (Done a, w)
              /\ err_of op a = Some e /\ PermissionDenied e = true.

(** The world after the calls [cs] have been issued and left the backend in
    state [s]. *)
Definition after {S} (w : World S) (s : S) (cs : list Call) : World S :=
  {| vault := s; calls := calls w ++ cs; stdout := stdout w |}.

(** ** Test doubles *)

(** A backend without state that answers every call with the same secret
    and error. *)
Definition canned (sec : option vault_Secret) (err : option string)
  : vault_Client unit :=
  {| Logical := {| Delete := fun _ s => ((sec, err), s);
                   List := fun _ s => ((sec, err), s);
                   Read := fun _ s => ((sec, err), s);
                   Write := fun _ _ s => ((sec, err), s) |};
     Sys := {| DeletePolicy := fun _ s => (err, s);
               PutPolicy := fun _ _ s => (err, s) |} |}.

(** The fake backend that errors if touched. *)
Definition untouchable : vault_Client unit := canned None (Some "backend touched").

Definition fresh {S} (s : S) : World S :=
  {| vault := s; calls := []; stdout := [] |}.

Definition provider {S} (svc : vault_Client S) (provider_ key secret : string)
  : VaultProvider S :=
  fst (NewVaultProvider svc {| Provider := provider_; Key := key; Secret := secret |}).

(** A key-value store: [Write] keeps what [store] makes of the data under
    the path, [Read] returns what is kept there (a nil secret when nothing
    is), [List] returns the paths below a prefix, [Delete] forgets. *)
Record kv_state : Type := {
  entries : gmap string (gmap string value);
  policies : gmap string string
}.

Definition kv_client (store : gmap string value -> gmap string value)
  : vault_Client kv_state :=
  {| Logical :=
       {| Delete := fun path s =>
            ((None, None),
             {| entries := delete path (entries s); policies := policies s |});
          List := fun path s =>
            let keys :=
              List.filter (fun k => strings.HasPrefix k path)
                          (map fst (map_to_list (entries s))) in
            match keys with
            | [] => ((None, None), s)
            | _ =>
                ((Some {| Data := {[ "keys" :=
                                       VList (map (fun k => VString
                                         (strings.from (String.length path) k)) keys) ]};
                          Auth := None |}, None), s)
            end;
          Read := fun path s =>
            match entries s !! path with
            | Some d => ((Some {| Data := d; Auth := None |}, None), s)
            | None => ((None, None), s)
            end;
          Write := fun path data s =>
            ((None, None),
             {| entries := <[path := store data]> (entries s);
                policies := policies s |}) |};
     Sys :=
       {| DeletePolicy := fun name s =>
            (None, {| entries := entries s; policies := delete name (policies s) |});
          PutPolicy := fun name rules s =>
            (None, {| entries := entries s;
                      policies := <[name := rules]> (policies s) |}) |} |}.


(** Vault's AWS roles endpoint as the provider meets it: a response is
    decoded from JSON, so a non-nil [[]string] comes back as a
    [[]interface{}] of strings and a nil one, written as [null], as a nil
    interface; a single [role_arns] string comes back as a list of one. *)
Definition json_decoded (x : value) : value :=
  match x with
  | VStrings Slice.nil_slice => VNil
  | VStrings (Slice.make l) => VList (map VString l)
  | _ => x
  end.

Definition as_list (x : value) : value :=
  match x with
  | VString s => VList [VString s]
  | _ => x
  end.

Definition aws_roles : vault_Client kv_state :=
  kv_client (fun data => alter as_list "role_arns" (json_decoded <$> data)).

Definition empty_kv : kv_state := {| entries := ∅; policies := ∅ |}.

(** ** Specification-level notions used by the properties *)

(** A string without a colon. *)
Definition colon_free (s : string) : Prop := strings.Contains s ":" = false.

(** The segments [NewAuthorization] works on. *)
Definition segments (authorizationHeader : string) : list string :=
  Slice.elements (strings.SplitN authorizationHeader ":" 3).

Definition malformed : outcome (option Authorization * option error) :=
  Done (None, Some (errors_New "invalid authorization header provided")).

(** A policy text of one stanza: one path pattern with one capability. *)
Definition policy_stanza (pattern capability : string) : string :=
  "path " ++ dq ++ pattern ++ dq
    ++ " { capabilities = [" ++ dq ++ capability ++ dq ++ "] }".

(** A policy text: its stanzas, one after the other, a space between
    two. *)
Fixpoint policy_text (stanzas : list (string * string)) : string :=
  match stanzas with
  | [] => ""
  | (pattern, capability) :: rest =>
      match rest with
      | [] => policy_stanza pattern capability
      | _ => policy_stanza pattern capability ++ " " ++ policy_text rest
      end
  end.

(** A string without the character [c]; a quoted pattern or capability
    holds no double quote. *)
Definition char_free (c : ascii) (s : string) : Prop :=
  strings.Contains s (String c "") = false.

Definition quote_free (s : string) : Prop := char_free "034" s.

Definition well_quoted (stanza : string * string) : Prop :=
  quote_free (fst stanza) /\ quote_free (snd stanza).

(** A project name that closes the quoted pattern and goes on with a
    stanza of its own. *)
Definition quoting_name : string :=
  "a" ++ dq ++ " { capabilities = [" ++ dq ++ "read" ++ dq ++ "] } path "
      ++ dq ++ "secret/*" ++ dq ++ " { capabilities = [" ++ dq ++ "read" ++ dq
      ++ "] } path " ++ dq ++ "b".

(** The path pattern of a project's target roles. *)
Definition target_roles_pattern (projectName : string) : string :=
  "aws/sts/argo-cloudops-projects-" ++ projectName ++ "-target-*".

(** The permission branch of each method, as a function of the admin
    classification of the key alone. *)
Definition permission_branch {A} (op : Op A) (admin : bool) : bool :=
  if admin_gated op then negb admin
  else match op with
       | OpGetToken => admin
       | _ => false
       end.

(** The one method that sends the bound secret to the backend. *)
Definition uses_secret {A} (op : Op A) : bool :=
  match op with
  | OpGetToken => true
  | _ => false
  end.

(** A backend where every call succeeds with the same well-formed secret. *)
Definition ok_secret : vault_Secret :=
  {| Data := {[ "role_id" := VString "role-1";
                "secret_id" := VString "secret-1";
                "keys" := VList [VString "argo-cloudops-projects-proj1-target-a";
                                 VString "argo-cloudops-projects-proj1-target-b";
                                 VString "argo-cloudops-projects-proj2-target-c"] ]};
     Auth := Some {| ClientToken := "token-1" |} |}.

Definition always_ok : vault_Client unit := canned (Some ok_secret) None.

Definition project_policy_name (name : string) : string :=
  "argo-cloudops-projects-" ++ name.

Definition project_identity_path (name : string) : string :=
  "auth/approle/role/argo-cloudops-projects-" ++ name.

(** The four backend steps of the specification. *)
Definition step_policy (name : string) : Call :=
  CallPutPolicy (project_policy_name name)
                (policy_stanza (target_roles_pattern name) "read").

Definition identity_parameters (name : string) : gmap string value :=
  {[ "secret_id_ttl" := VString "8776h";
     "token_max_ttl" := VString "10m";
     "token_no_default_policy" := VString "true";
     "token_num_uses" := VInt 3;
     "token_policies" := VString (project_policy_name name) ]}.

Definition step_identity (name : string) : Call :=
  CallWrite (project_identity_path name) (identity_parameters name).

Definition step_roleID (name : string) : Call :=
  CallRead (project_identity_path name ++ "/role-id").

Definition step_secretID (name : string) : Call :=
  CallWrite (project_identity_path name ++ "/secret-id") {[ "force" := VBool true ]}.

(** The order the specification gives, and the order of the code. *)
Definition steps_as_specified (name : string) : list Call :=
  [step_policy name; step_identity name; step_roleID name; step_secretID name].

Definition CreateProject_steps (name : string) : list Call :=
  [step_policy name; step_identity name; step_secretID name; step_roleID name].

Definition target_path (projectName targetName : string) : string :=
  "aws/roles/argo-cloudops-projects-" ++ projectName ++ "-target-" ++ targetName.

(** The sequence [GetTarget] builds from the policy ARNs it decodes: it
    appends to a nil slice, so no ARN leaves it nil. *)
Definition decoded_policies (ps : list string) : Slice.t string :=
  match ps with
  | [] => Slice.nil_slice
  | _ => Slice.make ps
  end.

(** The response data [GetTarget] can decode, and what it decodes to:
    [role_arns] is a [[]interface{}] whose first element is a string,
    [policy_arns] a [[]interface{}] of strings, [credential_type] a
    string. *)
Definition target_data_shape (d : gmap string value) (props : TargetProperties) : Prop :=
  exists (rest : list value) (ps : list string),
    d !! "role_arns" = Some (VList (VString (RoleArn props) :: rest))
    /\ d !! "policy_arns" = Some (VList (map VString ps))
    /\ PolicyArns props = decoded_policies ps
    /\ d !! "credential_type" = Some (VString (CredentialType props)).

Definition target_secret : vault_Secret :=
  {| Data := {[ "role_arns" := VList [VString "arn:aws:iam::1:role/deploy"];
                "policy_arns" := VList [VString "arn:aws:iam::1:policy/a";
                                        VString "arn:aws:iam::1:policy/b"];
                "credential_type" := VString "assumed_role" ]};
     Auth := None |}.

Definition target_properties : TargetProperties :=
  {| CredentialType := "assumed_role";
     PolicyArns := Slice.make ["arn:aws:iam::1:policy/a"; "arn:aws:iam::1:policy/b"];
     RoleArn := "arn:aws:iam::1:role/deploy" |}.

Definition deploy_target : CreateTargetRequest :=
  {| Name := "deploy";
     Properties := target_properties;
     Type_ := "aws_account" |}.

Definition target_prefix (project : string) : string :=
  "argo-cloudops-projects-" ++ project ++ "-target-".

(** The keys of a project's targets among the keys listed, and their
    names once the prefix is cut off. *)
Definition project_keys (project : string) (keys : list string) : list string :=
  List.filter (fun k => strings.HasPrefix k (target_prefix project)) keys.

Definition target_names (project : string) (keys : list string) : list string :=
  map (strings.from (String.length (target_prefix project))) (project_keys project keys).

(** A run ended in a panic. *)
Definition panics {S A} (r : outcome A * World S) : bool :=
  match fst r with
  | Panic _ => true
  | Done _ => false
  end.

(** The methods that dereference a backend response without a nil guard,
    for the credentials that let them reach the backend: GetToken for a
    tenant, CreateProject (through readSecretID and readRoleID) for an
    admin. *)
Definition dereferences_unguarded {A} (op : Op A) (key : string) : bool :=
  match op with
  | OpGetToken => negb (String.eqb key "admin")
  | OpCreateProject _ => String.eqb key "admin"
  | _ => false
  end.

(** The backend that answers every call with a nil secret and a nil
    error. *)
Definition nil_backend : vault_Client unit := canned None None.

(** The identifier an answer carries under a field, or the panic of
    reading it: a nil secret cannot be dereferenced, and the field must be
    there and hold a string. *)
Definition identifier (field : string) (sec : option vault_Secret) : outcome string :=
  match sec with
  | None => Panic NilDereference
  | Some s =>
      match Data s !! field with
      | Some (VString x) => Done x
      | _ => Panic TypeAssertion
      end
  end.

(** ** Notions used by the further properties *)

(** A string without a dash. *)
Definition dash_free (s : string) : Prop := strings.Contains s "-" = false.

(** The backend calls a method can make, in order, as its arguments (and,
    for GetToken, the bound credentials) fix them. *)
Definition script {S A} (v : VaultProvider S) (op : Op A) : list Call :=
  match op with
  | OpCreateProject name => CreateProject_steps name
  | OpCreateTarget projectName ctr =>
      [CallWrite (target_path projectName (Name ctr))
         {[ "role_arns" := VString (RoleArn (Properties ctr));
            "credential_type" := VString (CredentialType (Properties ctr));
            "policy_arns" := VStrings (PolicyArns (Properties ctr)) ]}]
  | OpDeleteProject name =>
      [CallDeletePolicy (project_policy_name name);
       CallDelete (project_identity_path name)]
  | OpDeleteTarget projectName targetName =>
      [CallDelete (target_path projectName targetName)]
  | OpGetProject projectName => [CallRead (project_identity_path projectName)]
  | OpGetTarget projectName targetName =>
      [CallRead (target_path projectName targetName)]
  | OpGetToken =>
      [CallWrite "auth/approle/login"
         {[ "role_id" := VString (roleID v); "secret_id" := VString (secretID v) ]}]
  | OpListTargets _ => [CallList "aws/roles/"]
  | OpProjectExists name => [CallRead (project_identity_path name)]
  | OpTargetExists _ => []
  end.

(** Whether a method gets past its credentials check to the backend. *)
Definition reaches_backend {A} (op : Op A) (key : string) : bool :=
  match op with
  | OpTargetExists _ => false
  | OpGetProject _ | OpProjectExists _ => true
  | OpGetToken => negb (String.eqb key "admin")
  | _ => String.eqb key "admin"
  end.

(** * Properties *)

(** ** Strings *)

Section StringFacts.
Import strings.

Lemma append_nil (x : string) : "" ++ x = x.
Proof. reflexivity. Qed.

Lemma append_cons c (p x : string) : String c p ++ x = String c (p ++ x).
Proof. reflexivity. Qed.

Lemma HasPrefix_empty s : HasPrefix s "" = true.
Proof. destruct s; reflexivity. Qed.

Lemma HasPrefix_app p s : HasPrefix (p ++ s) p = true.
Proof.
  induction p as [|c p IH]; [reflexivity|].
  rewrite append_cons. simpl. rewrite Ascii.eqb_refl. exact IH.
Qed.

Lemma HasPrefix_split s p :
  HasPrefix s p = true -> s = p ++ from (String.length p) s.
Proof.
  revert s. induction p as [|c p IH]; intros s H.
  - destruct s; reflexivity.
  - destruct s as [|d s]; [discriminate|]. simpl in H.
    destruct (Ascii.eqb c d) eqn:E; [|discriminate].
    apply Ascii.eqb_eq in E. subst d.
    rewrite append_cons. simpl. f_equal. apply IH, H.
Qed.

Lemma Index_lower s sep : -1 <= Index s sep.
Proof.
  induction s as [|c s IH]; simpl.
  - destruct (HasPrefix "" sep); lia.
  - destruct (HasPrefix (String c s) sep); [lia|].
    destruct (Index s sep <? 0) eqn:E; [lia|]. apply Z.ltb_ge in E. lia.
Qed.

Lemma Index_HasPrefix s sep : HasPrefix s sep = true -> Index s sep = 0.
Proof. intros H. destruct s; simpl; rewrite H; reflexivity. Qed.

Lemma upto_app p s : upto (String.length p) (p ++ s) = p.
Proof.
  induction p as [|c p IH]; [destruct s; reflexivity|].
  rewrite append_cons. simpl. now rewrite IH.
Qed.

Lemma from_app p s : from (String.length p) (p ++ s) = s.
Proof.
  induction p as [|c p IH]; [destruct s; reflexivity|].
  rewrite append_cons. simpl. exact IH.
Qed.

Lemma app_assoc_s (a b c : string) : (a ++ b) ++ c = a ++ b ++ c.
Proof.
  induction a as [|x a IH]; [reflexivity|]. rewrite !append_cons. now rewrite IH.
Qed.

Lemma length_app_s (a b : string) :
  String.length (a ++ b) = (String.length a + String.length b)%nat.
Proof.
  induction a as [|x a IH]; [reflexivity|]. rewrite append_cons. simpl. now rewrite IH.
Qed.

(** The cut [genSplit] makes at the first separator puts the string back
    together. *)
Lemma Index_cut s sep :
  0 <= Index s sep ->
  s = upto (Z.to_nat (Index s sep)) s ++ sep
        ++ from (Z.to_nat (Index s sep) + String.length sep) s.
Proof.
  induction s as [|c s IH]; intros H.
  - simpl in H. destruct (HasPrefix "" sep) eqn:E; [|lia].
    rewrite (Index_HasPrefix _ _ E). simpl. rewrite append_nil.
    now apply HasPrefix_split.
  - simpl in H. destruct (HasPrefix (String c s) sep) eqn:E.
    + rewrite (Index_HasPrefix _ _ E). simpl. rewrite append_nil.
      now apply HasPrefix_split.
    + destruct (Index s sep <? 0) eqn:E'; [lia|].
      pose proof (proj1 (Z.ltb_ge _ _) E') as Hm.
      simpl Index. rewrite E, E'.
      replace (Z.to_nat (1 + Index s sep)) with (Datatypes.S (Z.to_nat (Index s sep))) by lia.
      simpl. rewrite append_cons. f_equal. apply IH, Hm.
Qed.

Lemma Index_colon_cons c s :
  Index (String c s) ":"
  = if Ascii.eqb ":" c then 0
    else if Index s ":" <? 0 then -1 else 1 + Index s ":".
Proof.
  change (Index (String c s) ":")
    with (if HasPrefix (String c s) ":" then 0
          else if Index s ":" <? 0 then -1 else 1 + Index s ":").
  change (HasPrefix (String c s) ":")
    with (if Ascii.eqb ":" c then HasPrefix s "" else false).
  rewrite HasPrefix_empty. destruct (Ascii.eqb ":" c); reflexivity.
Qed.

Lemma colon_free_Index s : colon_free s <-> Index s ":" = -1.
Proof.
  unfold colon_free, Contains. pose proof (Index_lower s ":").
  rewrite Z.leb_gt. lia.
Qed.

Lemma Index_colon_app p r :
  colon_free p -> Index (p ++ ":" ++ r) ":" = Z.of_nat (String.length p).
Proof.
  rewrite colon_free_Index. induction p as [|c p IH]; intros H.
  - reflexivity.
  - rewrite Index_colon_cons in H.
    rewrite append_cons, Index_colon_cons.
    destruct (Ascii.eqb ":" c); [discriminate|].
    destruct (Index p ":" <? 0) eqn:E.
    + pose proof (Index_lower p ":"). apply Z.ltb_lt in E.
      rewrite IH by lia. simpl String.length.
      destruct (Z.of_nat (String.length p) <? 0) eqn:E2; [apply Z.ltb_lt in E2|]; lia.
    + apply Z.ltb_ge in E. lia.
Qed.

Lemma Index_colon_upto s :
  0 <= Index s ":" -> colon_free (upto (Z.to_nat (Index s ":")) s).
Proof.
  rewrite colon_free_Index. induction s as [|c s IH]; intros H.
  - simpl in H. lia.
  - rewrite Index_colon_cons in H |- *.
    destruct (Ascii.eqb ":" c) eqn:Ec; [reflexivity|].
    destruct (Index s ":" <? 0) eqn:E; [lia|]. apply Z.ltb_ge in E.
    replace (Z.to_nat (1 + Index s ":")) with (Datatypes.S (Z.to_nat (Index s ":"))) by lia.
    simpl upto. rewrite Index_colon_cons, Ec, (IH E). reflexivity.
Qed.

Lemma Index_app_mid a s b : 0 <= Index (a ++ s ++ b) s.
Proof.
  induction a as [|c a IH].
  - rewrite append_nil, Index_HasPrefix; [lia | apply HasPrefix_app].
  - rewrite append_cons. simpl Index.
    destruct (HasPrefix _ s); [lia|].
    destruct (Index (a ++ s ++ b) s <? 0) eqn:E; [apply Z.ltb_lt in E|]; lia.
Qed.

Lemma app_inv_l (a x y : string) : a ++ x = a ++ y -> x = y.
Proof.
  induction a as [|c a IH]; intros H; [exact H|].
  rewrite !append_cons in H. injection H. exact IH.
Qed.

Lemma app_inv_r (b x y : string) : x ++ b = y ++ b -> x = y.
Proof.
  revert y. induction x as [|c x IH]; intros [|d y] H.
  - reflexivity.
  - apply (f_equal String.length) in H.
    rewrite append_nil, append_cons in H. simpl in H. rewrite length_app_s in H. lia.
  - apply (f_equal String.length) in H.
    rewrite append_nil, append_cons in H. simpl in H. rewrite length_app_s in H. lia.
  - rewrite !append_cons in H. injection H as -> H. f_equal. now apply IH.
Qed.

Lemma Replace_prefix s p :
  HasPrefix s p = true -> Replace s p "" 1 = from (String.length p) s.
Proof.
  intros H. unfold Replace. rewrite (Index_HasPrefix _ _ H). simpl.
  rewrite !append_nil. reflexivity.
Qed.
End StringFacts.

(** ** Parsing the authorization header *)

Section Parsing.
Import strings.

Lemma genSplit_S n s sep :
  genSplit (Datatypes.S n) s sep
  = if Index s sep <? 0 then [s]
    else upto (Z.to_nat (Index s sep)) s
           :: genSplit n (from (Z.to_nat (Index s sep) + String.length sep) s) sep.
Proof. reflexivity. Qed.

Lemma genSplit_colon n p r :
  colon_free p ->
  genSplit (Datatypes.S n) (p ++ ":" ++ r) ":" = p :: genSplit n r ":".
Proof.
  intros Hp. rewrite genSplit_S, (Index_colon_app _ _ Hp).
  destruct (Z.of_nat (String.length p) <? 0) eqn:E; [apply Z.ltb_lt in E; lia|].
  rewrite Nat2Z.id, upto_app. f_equal. f_equal.
  rewrite <- app_assoc_s.
  replace (String.length p + String.length ":")%nat with (String.length (p ++ ":"))
    by apply length_app_s.
  apply from_app.
Qed.

Lemma segments_header p k s :
  colon_free p -> colon_free k -> segments (p ++ ":" ++ k ++ ":" ++ s) = [p; k; s].
Proof.
  intros Hp Hk. unfold segments, SplitN, Slice.elements.
  rewrite (genSplit_colon _ _ _ Hp), (genSplit_colon _ _ _ Hk). reflexivity.
Qed.

(** Whatever the header, the segments are one, two or three, cut at the
    first colons, and glue back to the header. *)
Lemma segments_cases h :
  segments h = [h] /\ colon_free h
  \/ (exists p r, segments h = [p; r] /\ h = p ++ ":" ++ r
                  /\ colon_free p /\ colon_free r)
  \/ (exists p k s, segments h = [p; k; s] /\ h = p ++ ":" ++ k ++ ":" ++ s
                    /\ colon_free p /\ colon_free k).
Proof.
  unfold segments, SplitN, Slice.elements. rewrite genSplit_S.
  destruct (Index h ":" <? 0) eqn:E1.
  { left. split; [reflexivity|]. apply colon_free_Index.
    pose proof (Index_lower h ":"). apply Z.ltb_lt in E1. lia. }
  apply Z.ltb_ge in E1. right.
  pose proof (Index_cut h ":" E1) as Hh. pose proof (Index_colon_upto h E1) as Hp.
  set (p := upto (Z.to_nat (Index h ":")) h) in *.
  set (r := from (Z.to_nat (Index h ":") + String.length ":") h) in *.
  rewrite genSplit_S. destruct (Index r ":" <? 0) eqn:E2.
  { left. exists p, r. repeat split; try assumption. apply colon_free_Index.
    pose proof (Index_lower r ":"). apply Z.ltb_lt in E2. lia. }
  apply Z.ltb_ge in E2. right.
  pose proof (Index_cut r ":" E2) as Hr. pose proof (Index_colon_upto r E2) as Hk.
  set (k := upto (Z.to_nat (Index r ":")) r) in *.
  set (s := from (Z.to_nat (Index r ":") + String.length ":") r) in *.
  exists p, k, s. repeat split; try assumption. now rewrite <- Hr.
Qed.

Lemma NewAuthorization_segments h :
  NewAuthorization h
  = if existsb (fun i => String.eqb i "") (segments h) then malformed
    else match segments h with
         | p :: k :: s :: _ =>
             Done (Some {| Provider := p; Key := k; Secret := s |}, None)
         | _ => malformed
         end.
Proof.
  unfold NewAuthorization. fold (segments h).
  destruct (existsb _ (segments h)); [reflexivity|].
  destruct (segments h) as [|p [|k [|s l]]]; try reflexivity.
  simpl length.
  destruct (Z.of_nat (Datatypes.S (Datatypes.S (Datatypes.S (length l)))) <? 3) eqn:E;
    [apply Z.ltb_lt in E; lia | reflexivity].
Qed.

Lemma existsb_empty_false (l : list string) :
  existsb (fun i => String.eqb i "") l = false <-> ~ In "" l.
Proof.
  split.
  - intros H Hin. assert (existsb (fun i => String.eqb i "") l = true) as H'.
    { apply existsb_exists. exists "". split; [exact Hin | reflexivity]. }
    congruence.
  - intros H. destruct (existsb _ l) eqn:E; [|reflexivity].
    apply existsb_exists in E as (x & Hin & Hx). apply String.eqb_eq in Hx.
    subst x. contradiction.
Qed.
End Parsing.

(** C5. [NewAuthorization] splits the header on its first two colons only:
    a header [p:k:s] with non-empty segments, [p] and [k] without a colon
    ([s] may hold more colons) yields exactly [{Provider: p, Key: k,
    Secret: s}] and no error; a header with fewer than three segments or
    with an empty segment yields no Authorization and the malformed-header
    error; these are the only two results (a returned Authorization always
    glues back to the header, and the parser never panics).  In particular
    ["p:k:s"] and ["p:k:s:extra"] parse, the latter with secret
    ["s:extra"], and ["p:k:"], ["p::s"], ["p:k"] and the empty header are
    rejected. *)
Theorem NewAuthorization_spec :
  (forall p k s : string,
      p <> "" -> k <> "" -> s <> "" ->
      strings.Contains p ":" = false -> strings.Contains k ":" = false ->
      NewAuthorization (p ++ ":" ++ k ++ ":" ++ s)
      = Done (Some {| Provider := p; Key := k; Secret := s |}, None))
  /\ (forall h : string,
         (length (segments h) < 3)%nat \/ In "" (segments h) ->
         NewAuthorization h = malformed)
  /\ (forall h : string,
         NewAuthorization h = malformed
         \/ exists a, NewAuthorization h = Done (Some a, None)
                      /\ h = Provider a ++ ":" ++ Key a ++ ":" ++ Secret a
                      /\ Provider a <> "" /\ Key a <> "" /\ Secret a <> ""
                      /\ strings.Contains (Provider a) ":" = false
                      /\ strings.Contains (Key a) ":" = false)
  /\ NewAuthorization "p:k:s"
     = Done (Some {| Provider := "p"; Key := "k"; Secret := "s" |}, None)
  /\ NewAuthorization "p:k:s:extra"
     = Done (Some {| Provider := "p"; Key := "k"; Secret := "s:extra" |}, None)
  /\ NewAuthorization "p:k:" = malformed
  /\ NewAuthorization "p::s" = malformed
  /\ NewAuthorization "p:k" = malformed
  /\ NewAuthorization "" = malformed.
Proof.
  split; [|split; [|split]].
  - intros p k s Hp Hk Hs Cp Ck.
    rewrite NewAuthorization_segments, (segments_header p k s Cp Ck).
    apply String.eqb_neq in Hp, Hk, Hs. simpl. now rewrite Hp, Hk, Hs.
  - intros h H. rewrite NewAuthorization_segments.
    destruct (existsb _ (segments h)) eqn:E; [reflexivity|].
    apply existsb_empty_false in E. destruct H as [H|H]; [|contradiction].
    destruct (segments h) as [|p [|k [|s l]]]; try reflexivity. simpl in H. lia.
  - intros h. rewrite NewAuthorization_segments.
    destruct (existsb _ (segments h)) eqn:E; [now left|].
    apply existsb_empty_false in E.
    destruct (segments_cases h) as [[Hs _]|[(p & r & Hs & _)|(p & k & s & Hs & Hh & Cp & Ck)]];
      rewrite Hs in *; [now left | now left |].
    right. eexists. split; [reflexivity|]. simpl.
    repeat split; try assumption; intros ->; apply E; simpl; auto.
  - repeat split; reflexivity.
Qed.

Lemma NewAuthorization_spec_witness :
  NewAuthorization ("p" ++ ":" ++ "k" ++ ":" ++ "s:extra")
  = Done (Some {| Provider := "p"; Key := "k"; Secret := "s:extra" |}, None)
  /\ NewAuthorization "p:k" = malformed.
Proof.
  split.
  - apply (proj1 NewAuthorization_spec "p" "k" "s:extra");
      first [discriminate | reflexivity].
  - apply (proj1 (proj2 NewAuthorization_spec) "p:k"). left. simpl. lia.
Defined.

(** ** The readonly policy *)

Lemma defaultVaultReadonlyPolicyAWS_stanza name :
  defaultVaultReadonlyPolicyAWS name
  = policy_stanza (target_roles_pattern name) "read".
Proof.
  unfold defaultVaultReadonlyPolicyAWS, policy_stanza, target_roles_pattern.
  rewrite !app_assoc_s. reflexivity.
Qed.

Lemma defaultVaultReadonlyPolicyAWS_inj n1 n2 :
  defaultVaultReadonlyPolicyAWS n1 = defaultVaultReadonlyPolicyAWS n2 -> n1 = n2.
Proof.
  unfold defaultVaultReadonlyPolicyAWS. intros H.
  do 3 apply app_inv_l in H. now apply app_inv_r in H.
Qed.

Lemma append_empty_r (s : string) : s ++ "" = s.
Proof.
  induction s as [|c s IH]; [reflexivity|]. rewrite append_cons. now rewrite IH.
Qed.

Lemma Index_one_char (sep c : ascii) (s : string) :
  strings.Index (String c s) (String sep "")
  = if Ascii.eqb sep c then 0
    else if strings.Index s (String sep "") <? 0 then -1
         else 1 + strings.Index s (String sep "").
Proof.
  change (strings.Index (String c s) (String sep ""))
    with (if strings.HasPrefix (String c s) (String sep "") then 0
          else if strings.Index s (String sep "") <? 0 then -1
               else 1 + strings.Index s (String sep "")).
  change (strings.HasPrefix (String c s) (String sep ""))
    with (if Ascii.eqb sep c then strings.HasPrefix s "" else false).
  rewrite HasPrefix_empty. destruct (Ascii.eqb sep c); reflexivity.
Qed.

Lemma char_free_cons (sep c : ascii) (s : string) :
  char_free sep (String c s) <-> c <> sep /\ char_free sep s.
Proof.
  unfold char_free, strings.Contains. rewrite Index_one_char.
  pose proof (Index_lower s (String sep "")) as Hl.
  destruct (Ascii.eqb sep c) eqn:E.
  - apply Ascii.eqb_eq in E. subst c. change (0 <=? 0) with true.
    split; [discriminate | intros [H _]; congruence].
  - apply Ascii.eqb_neq in E.
    destruct (strings.Index s (String sep "") <? 0) eqn:E'.
    + apply Z.ltb_lt in E'. change (0 <=? -1) with false. split.
      * intros _. split; [congruence|]. apply Z.leb_gt. lia.
      * intros _. reflexivity.
    + apply Z.ltb_ge in E'. rewrite !Z.leb_gt. split.
      * intros H. lia.
      * intros [_ H]. lia.
Qed.

Lemma char_free_app (sep : ascii) (a b : string) :
  char_free sep a -> char_free sep b -> char_free sep (a ++ b).
Proof.
  intros Ha Hb. induction a as [|c a IH]; [exact Hb|].
  rewrite append_cons. apply char_free_cons. apply char_free_cons in Ha.
  split; [apply Ha | apply IH, Ha].
Qed.

(** Two strings without [sep], each followed by [sep]: the cut is at the
    same place. *)
Lemma char_cut (sep : ascii) (a b x y : string) :
  char_free sep a -> char_free sep b ->
  a ++ String sep x = b ++ String sep y -> a = b /\ x = y.
Proof.
  revert b. induction a as [|c a IH]; intros [|d b] Ha Hb H.
  - rewrite !append_nil in H. injection H as ->. now split.
  - rewrite append_nil, append_cons in H. injection H as <- _.
    apply char_free_cons in Hb. now destruct Hb.
  - rewrite append_nil, append_cons in H. injection H as -> _.
    apply char_free_cons in Ha. now destruct Ha.
  - rewrite !append_cons in H. injection H as -> H.
    apply char_free_cons in Ha, Hb.
    destruct (IH b (proj2 Ha) (proj2 Hb) H) as [-> ->]. now split.
Qed.

Lemma policy_text_cons (pattern capability : string) (rest : list (string * string)) :
  policy_text ((pattern, capability) :: rest)
  = policy_stanza pattern capability
      ++ match rest with
         | [] => ""
         | _ => " " ++ policy_text rest
         end.
Proof. destruct rest; [now rewrite append_empty_r | reflexivity]. Qed.

Lemma target_roles_pattern_quote_free (name : string) :
  quote_free name -> quote_free (target_roles_pattern name).
Proof.
  intros H. unfold target_roles_pattern, quote_free.
  apply char_free_app; [reflexivity|]. apply char_free_app; [exact H | reflexivity].
Qed.

(** The one way to read a single well-quoted stanza as a policy text. *)
Lemma policy_stanza_unique (P C : string) (stanzas : list (string * string)) :
  quote_free P -> quote_free C -> Forall well_quoted stanzas ->
  policy_stanza P C = policy_text stanzas -> stanzas = [(P, C)].
Proof.
  intros HP HC Hwf H. destruct stanzas as [|[p c] rest].
  - discriminate H.
  - rewrite policy_text_cons in H. inversion Hwf as [|? ? [Hp Hc] _]; subst.
    simpl in Hp, Hc. unfold policy_stanza in H. rewrite !app_assoc_s in H.
    apply (app_inv_l "path ") in H.
    change (dq ++ P ++ dq ++ " { capabilities = [" ++ dq ++ C ++ dq ++ "] }")
      with ("" ++ String "034" (P ++ dq ++ " { capabilities = [" ++ dq ++ C ++ dq ++ "] }"))
      in H.
    change (dq ++ p ++ dq ++ " { capabilities = [" ++ dq ++ c ++ dq ++ "] }"
               ++ match rest with [] => "" | _ :: _ => " " ++ policy_text rest end)
      with ("" ++ String "034" (p ++ dq ++ " { capabilities = [" ++ dq ++ c ++ dq ++ "] }"
               ++ match rest with [] => "" | _ :: _ => " " ++ policy_text rest end))
      in H.
    apply (app_inv_l "") in H. injection H as H.
    change (dq ++ " { capabilities = [" ++ dq ++ C ++ dq ++ "] }")
      with (String "034" (" { capabilities = [" ++ dq ++ C ++ dq ++ "] }")) in H.
    change (dq ++ " { capabilities = [" ++ dq ++ c ++ dq ++ "] }"
               ++ match rest with [] => "" | _ :: _ => " " ++ policy_text rest end)
      with (String "034" (" { capabilities = [" ++ dq ++ c ++ dq ++ "] }"
               ++ match rest with [] => "" | _ :: _ => " " ++ policy_text rest end)) in H.
    destruct (char_cut _ _ _ _ _ HP Hp H) as [<- H'].
    apply (app_inv_l " { capabilities = [") in H'.
    change (dq ++ C ++ dq ++ "] }") with ("" ++ String "034" (C ++ dq ++ "] }")) in H'.
    change (dq ++ c ++ dq ++ "] }"
               ++ match rest with [] => "" | _ :: _ => " " ++ policy_text rest end)
      with ("" ++ String "034" (c ++ dq ++ "] }"
               ++ match rest with [] => "" | _ :: _ => " " ++ policy_text rest end)) in H'.
    apply (app_inv_l "") in H'. injection H' as H'.
    change (dq ++ "] }") with (String "034" "] }") in H'.
    change (dq ++ "] }" ++ match rest with [] => "" | _ :: _ => " " ++ policy_text rest end)
      with (String "034" ("] }" ++ match rest with
                                   | [] => ""
                                   | _ :: _ => " " ++ policy_text rest
                                   end)) in H'.
    destruct (char_cut _ _ _ _ _ HC Hc H') as [<- H''].
    rewrite <- (append_empty_r "] }") in H'' at 1. apply app_inv_l in H''.
    destruct rest; [reflexivity | discriminate H''].
Qed.

(** C9, as the code has it. The readonly policy is a function of the
    project name alone.  For a name without a double quote the text is one
    stanza and reads in one way only: it grants [read] on the pattern
    [aws/sts/argo-cloudops-projects-<name>-target-*] and nothing else.
    For every name the text contains the name, and distinct names give
    distinct texts. *)
Theorem defaultVaultReadonlyPolicyAWS_one_stanza :
  forall n1 n2 : string,
    (strings.Contains n1 dq = false ->
     forall stanzas : list (string * string),
       Forall well_quoted stanzas ->
       (defaultVaultReadonlyPolicyAWS n1 = policy_text stanzas
        <-> stanzas = [("aws/sts/argo-cloudops-projects-" ++ n1 ++ "-target-*", "read")]))
    /\ strings.Contains (defaultVaultReadonlyPolicyAWS n1) n1 = true
    /\ (n1 <> n2 -> defaultVaultReadonlyPolicyAWS n1 <> defaultVaultReadonlyPolicyAWS n2).
Proof.
  intros n1 n2. split; [|split].
  - intros Hq stanzas Hwf. rewrite defaultVaultReadonlyPolicyAWS_stanza.
    fold (target_roles_pattern n1). split.
    + apply policy_stanza_unique; try assumption; [|reflexivity].
      now apply target_roles_pattern_quote_free.
    + intros ->. reflexivity.
  - unfold strings.Contains. apply Z.leb_le.
    replace (defaultVaultReadonlyPolicyAWS n1)
      with (("path " ++ dq ++ "aws/sts/argo-cloudops-projects-") ++ n1
              ++ "-target-*" ++ dq ++ " { capabilities = [" ++ dq ++ "read" ++ dq ++ "] }")
      by (unfold defaultVaultReadonlyPolicyAWS; rewrite !app_assoc_s; reflexivity).
    apply Index_app_mid.
  - intros Hne Heq. apply Hne. now apply defaultVaultReadonlyPolicyAWS_inj.
Qed.

Lemma defaultVaultReadonlyPolicyAWS_one_stanza_witness :
  (defaultVaultReadonlyPolicyAWS "proj1"
   = policy_text [("aws/sts/argo-cloudops-projects-proj1-target-*", "read")])
  /\ defaultVaultReadonlyPolicyAWS "proj1" <> defaultVaultReadonlyPolicyAWS "proj2".
Proof.
  split.
  - apply (proj1 (defaultVaultReadonlyPolicyAWS_one_stanza "proj1" "proj2") eq_refl).
    + repeat constructor.
    + reflexivity.
  - apply (proj2 (proj2 (defaultVaultReadonlyPolicyAWS_one_stanza "proj1" "proj2"))).
    discriminate.
Defined.

(** C9 as stated fails for a name that holds a double quote: the name
    closes the quoted pattern, and the text reads as three stanzas, one of
    them granting [read] on [secret/*]. *)
Lemma defaultVaultReadonlyPolicyAWS_quote_counterexample :
  defaultVaultReadonlyPolicyAWS quoting_name
  = policy_text [("aws/sts/argo-cloudops-projects-a", "read");
                 ("secret/*", "read");
                 ("b-target-*", "read")]
  /\ Forall well_quoted [("aws/sts/argo-cloudops-projects-a", "read");
                         ("secret/*", "read");
                         ("b-target-*", "read")]
  /\ ~ (forall stanzas : list (string * string),
          Forall well_quoted stanzas ->
          defaultVaultReadonlyPolicyAWS quoting_name = policy_text stanzas ->
          stanzas = [("aws/sts/argo-cloudops-projects-" ++ quoting_name ++ "-target-*",
                      "read")]).
Proof.
  assert (defaultVaultReadonlyPolicyAWS quoting_name
          = policy_text [("aws/sts/argo-cloudops-projects-a", "read");
                         ("secret/*", "read");
                         ("b-target-*", "read")]) as H by (vm_compute; reflexivity).
  assert (Forall well_quoted [("aws/sts/argo-cloudops-projects-a", "read");
                              ("secret/*", "read");
                              ("b-target-*", "read")]) as Hwf
      by (repeat constructor).
  split; [exact H|]. split; [exact Hwf|].
  intros Hall. specialize (Hall _ Hwf H). discriminate Hall.
Qed.

(** ** The admin gate *)

Lemma isAdmin_NewVaultProvider {S} (svc : vault_Client S) (a : Authorization) :
  isAdmin (fst (NewVaultProvider svc a)) = IsAdmin a.
Proof. reflexivity. Qed.

Lemma IsAdmin_false (a : Authorization) : Key a <> "admin" -> IsAdmin a = false.
Proof. intros H. now apply String.eqb_neq. Qed.

(** X16. The guard of the six methods.  CreateProject, DeleteProject,
    CreateTarget, GetTarget, DeleteTarget and ListTargets open with the
    [!v.isAdmin()] guard: invoked on a provider built from credentials
    whose Key is not ["admin"], they return a permission error and leave
    the world untouched, so no backend call is issued.  GetProject, and
    ProjectExists through it, do not open with the guard: whatever the
    credentials, they issue the backend Read of the project's identity
    path. *)
Theorem admin_gate :
  forall (S : Type) (svc : vault_Client S) (a : Authorization) (w : World S),
    (forall (A : Type) (op : Op A),
        Key a <> "admin" -> admin_gated op = true ->
        fails_before_backend (fst (NewVaultProvider svc a)) op w)
    /\ (forall name : string,
           calls (snd (GetProject (fst (NewVaultProvider svc a)) name w))
           = (calls w ++ [CallRead ("auth/approle/role/argo-cloudops-projects-" ++ name)])%list
           /\ calls (snd (ProjectExists (fst (NewVaultProvider svc a)) name w))
              = (calls w ++ [CallRead ("auth/approle/role/argo-cloudops-projects-" ++ name)])%list).
Proof.
  intros S svc a w. split.
  - intros A op Hkey Hop. apply IsAdmin_false in Hkey.
    rewrite <- (isAdmin_NewVaultProvider svc) in Hkey.
    set (v := fst (NewVaultProvider svc a)) in *.
    unfold fails_before_backend.
    destruct op; try discriminate Hop; unfold invoke;
      [ unfold CreateProject | unfold CreateTarget | unfold DeleteProject
      | unfold DeleteTarget | unfold GetTarget | unfold ListTargets ];
      rewrite Hkey; simpl negb; cbv iota;
      eexists; eexists; (split; [reflexivity | split; reflexivity]).
  - intros name.
    assert (calls (snd (GetProject (fst (NewVaultProvider svc a)) name w))
            = (calls w ++ [CallRead ("auth/approle/role/argo-cloudops-projects-" ++ name)])%list) as HG.
    { unfold GetProject, logical_Read, bind, issue, ret.
      destruct (Read _ _ _) as [[[sec|] [err|]] s]; reflexivity. }
    split; [exact HG|].
    unfold ProjectExists, bind. revert HG.
    destruct (GetProject _ name w) as [[[p err]|pn] w']; simpl; intros HG; [|exact HG].
    destruct (errors_Is_ErrNotFound err); [exact HG|].
    destruct err; exact HG.
Qed.

Lemma admin_gate_witness :
  fails_before_backend (provider untouchable "vault" "tenant" "s3cret")
                       (OpListTargets "proj1") (fresh tt).
Proof.
  apply (proj1 (admin_gate unit untouchable
                  {| Provider := "vault"; Key := "tenant"; Secret := "s3cret" |}
                  (fresh tt))).
  - discriminate.
  - reflexivity.
Defined.

(** C1. The code misses the gate on GetProject.  The six other admin-only
    methods open with the [!v.isAdmin()] guard; GetProject does not, and
    ProjectExists only calls GetProject.  With tenant credentials, on the
    fake backend that errors when touched, both reach the backend with the
    Read of the project's identity path and report the backend's error,
    where the claim has them fail with a permission error before any
    backend call. *)
Lemma GetProject_is_not_gated :
  admin_only_in_spec (OpGetProject "proj1") = true
  /\ admin_only_in_spec (OpProjectExists "proj1") = true
  /\ Key {| Provider := "vault"; Key := "tenant"; Secret := "s3cret" |} <> "admin"
  /\ invoke (provider untouchable "vault" "tenant" "s3cret") (OpGetProject "proj1") (fresh tt)
     = (Done ("", Some (errors_New "vault get project error: backend touched")),
        {| vault := tt;
           calls := [CallRead "auth/approle/role/argo-cloudops-projects-proj1"];
           stdout := [] |})
  /\ invoke (provider untouchable "vault" "tenant" "s3cret") (OpProjectExists "proj1")
            (fresh tt)
     = (Done (false, Some (errors_New "vault get project error: backend touched")),
        {| vault := tt;
           calls := [CallRead "auth/approle/role/argo-cloudops-projects-proj1"];
           stdout := [] |})
  /\ ~ fails_before_backend (provider untouchable "vault" "tenant" "s3cret")
                            (OpGetProject "proj1") (fresh tt)
  /\ ~ fails_before_backend (provider untouchable "vault" "tenant" "s3cret")
                            (OpProjectExists "proj1") (fresh tt).
Proof.
  split; [reflexivity|]. split; [reflexivity|]. split; [discriminate|].
  split; [reflexivity|]. split; [reflexivity|]. split.
  - intros (r & e & H & _).
    assert (calls (snd (invoke (provider untouchable "vault" "tenant" "s3cret")
                               (OpGetProject "proj1") (fresh tt)))
            = calls (snd (Done r, fresh tt))) as Hc by (now rewrite H).
    discriminate Hc.
  - intros (r & e & H & _).
    assert (calls (snd (invoke (provider untouchable "vault" "tenant" "s3cret")
                               (OpProjectExists "proj1") (fresh tt)))
            = calls (snd (Done r, fresh tt))) as Hc by (now rewrite H).
    discriminate Hc.
Qed.

(** ** Which credentials decide *)

(** Symbolic execution of a method: take the answer of the next backend
    call apart, then the data it carries. *)
Ltac call_backend :=
  match goal with
  | |- context [PutPolicy ?a ?b ?c ?d] =>
      destruct (PutPolicy a b c d) as [[?|] ?] eqn:?
  | |- context [DeletePolicy ?a ?b ?c] =>
      destruct (DeletePolicy a b c) as [[?|] ?] eqn:?
  | |- context [Write ?a ?b ?c ?d] =>
      destruct (Write a b c d) as [[[?|] [?|]] ?] eqn:?
  | |- context [Read ?a ?b ?c] =>
      destruct (Read a b c) as [[[?|] [?|]] ?] eqn:?
  | |- context [List ?a ?b ?c] =>
      destruct (List a b c) as [[[?|] [?|]] ?] eqn:?
  | |- context [Delete ?a ?b ?c] =>
      destruct (Delete a b c) as [[[?|] [?|]] ?] eqn:?
  end.

Ltac break_inner :=
  match goal with
  | |- context [match ?x with _ => _ end] =>
      lazymatch x with
      | context [match _ with _ => _ end] => fail
      | _ => destruct x eqn:?
      end
  end.

Ltac run_provider :=
  unfold logical_Read, logical_Write, logical_Delete, logical_List,
    sys_PutPolicy, sys_DeletePolicy, fmt_Println, bind, issue, ret, throw, lift,
    from_api;
  simpl;
  repeat (first [call_backend | break_inner]; simpl; try reflexivity).

Lemma denied_branch {S A} (v : VaultProvider S) (op : Op A) (w : World S) :
  denied op (invoke v op w) = permission_branch op (isAdmin v).
Proof.
  unfold denied, permission_branch.
  destruct op; unfold invoke, admin_gated;
    [ unfold CreateProject, createPolicyState, writeProjectState, readSecretID, readRoleID
    | unfold CreateTarget | unfold DeleteProject, deletePolicyState | unfold DeleteTarget
    | unfold GetProject | unfold GetTarget | unfold GetToken | unfold ListTargets
    | unfold ProjectExists, GetProject | unfold TargetExists ];
    destruct (isAdmin v); simpl; try reflexivity;
    run_provider; reflexivity.
Qed.

Lemma invoke_secret_irrelevant {S A} (svc : vault_Client S) (op : Op A)
      (p1 p2 k s1 s2 : string) (w : World S) :
  uses_secret op = false ->
  invoke (fst (NewVaultProvider svc {| Provider := p1; Key := k; Secret := s1 |})) op w
  = invoke (fst (NewVaultProvider svc {| Provider := p2; Key := k; Secret := s2 |})) op w.
Proof. intros H. destruct op; try discriminate H; reflexivity. Qed.

(** C2. A provider decides on permissions from the Key it was built from
    and nothing else: two Authorizations with the same Key give providers
    that take the same permission branch in every method, whatever their
    Provider and Secret fields; apart from GetToken, which sends the secret
    to the login endpoint, the whole run (result, backend calls, backend
    state) is the same.  The branch is a function of [Key == "admin"]
    alone, so no process-wide admin secret enters it: a provider whose key
    is ["admin"] passes every guard even when [AuthorizedAdmin] rejects
    its secret. *)
Theorem key_alone_decides :
  forall (S : Type) (svc : vault_Client S) (a1 a2 : Authorization)
         (A : Type) (op : Op A) (w : World S),
    Key a1 = Key a2 ->
    isAdmin (fst (NewVaultProvider svc a1)) = isAdmin (fst (NewVaultProvider svc a2))
    /\ denied op (invoke (fst (NewVaultProvider svc a1)) op w)
       = denied op (invoke (fst (NewVaultProvider svc a2)) op w)
    /\ denied op (invoke (fst (NewVaultProvider svc a1)) op w)
       = permission_branch op (String.eqb (Key a1) "admin")
    /\ (uses_secret op = false ->
        invoke (fst (NewVaultProvider svc a1)) op w
        = invoke (fst (NewVaultProvider svc a2)) op w)
    /\ (forall adminSecret : string,
           Key a1 = "admin" -> AuthorizedAdmin a1 adminSecret = false ->
           admin_gated op = true ->
           denied op (invoke (fst (NewVaultProvider svc a1)) op w) = false).
Proof.
  intros S svc a1 a2 A op w Hkey.
  assert (isAdmin (fst (NewVaultProvider svc a1))
          = isAdmin (fst (NewVaultProvider svc a2))) as Hadm.
  { rewrite !isAdmin_NewVaultProvider. unfold IsAdmin. now rewrite Hkey. }
  split; [exact Hadm|]. split; [|split; [|split]].
  - rewrite !denied_branch. now rewrite Hadm.
  - rewrite denied_branch. reflexivity.
  - intros Hs. destruct a1 as [p1 k1 s1], a2 as [p2 k2 s2]. simpl in Hkey. subst k2.
    now apply invoke_secret_irrelevant.
  - intros adminSecret Hk _ Hg. rewrite denied_branch, isAdmin_NewVaultProvider.
    unfold permission_branch, IsAdmin. rewrite Hg, Hk. reflexivity.
Qed.

Lemma key_alone_decides_witness :
  denied (OpDeleteProject "proj1")
         (invoke (provider (canned None None) "vault" "admin" "guess")
                 (OpDeleteProject "proj1") (fresh tt))
  = denied (OpDeleteProject "proj1")
           (invoke (provider (canned None None) "other" "admin" "s3cret")
                   (OpDeleteProject "proj1") (fresh tt))
  /\ denied (OpDeleteProject "proj1")
            (invoke (provider (canned None None) "vault" "admin" "guess")
                    (OpDeleteProject "proj1") (fresh tt)) = false.
Proof.
  pose proof (key_alone_decides unit (canned None None)
                {| Provider := "vault"; Key := "admin"; Secret := "guess" |}
                {| Provider := "other"; Key := "admin"; Secret := "s3cret" |}
                _ (OpDeleteProject "proj1") (fresh tt) eq_refl) as H.
  split.
  - exact (proj1 (proj2 H)).
  - apply (proj2 (proj2 (proj2 (proj2 H))) "s3cret"); reflexivity.
Defined.

(** ** Token exchange *)

(** C3. On a provider bound to admin credentials GetToken returns a
    permission error without touching the backend.  On a provider bound to
    tenant credentials it issues exactly one backend call, the Write of
    [{role_id: Key, secret_id: Secret}] to ["auth/approle/login"]; when
    the backend answers with an error that error is returned, and when it
    answers with a secret carrying a token, exactly that token is returned
    with no error. *)
Theorem GetToken_spec :
  forall (S : Type) (svc : vault_Client S) (a : Authorization) (w : World S),
    (Key a = "admin" ->
     exists e, GetToken (fst (NewVaultProvider svc a)) w = (Done ("", Some e), w)
               /\ PermissionDenied e = true)
    /\ (Key a <> "admin" ->
        forall (sec : option vault_Secret) (err : option string) (s' : S),
          Write (Logical svc) "auth/approle/login"
                {[ "role_id" := VString (Key a); "secret_id" := VString (Secret a) ]}
                (vault w) = ((sec, err), s') ->
          calls (snd (GetToken (fst (NewVaultProvider svc a)) w))
          = (calls w ++ [CallWrite "auth/approle/login"
                           {[ "role_id" := VString (Key a);
                              "secret_id" := VString (Secret a) ]}])%list
          /\ vault (snd (GetToken (fst (NewVaultProvider svc a)) w)) = s'
          /\ (forall msg, err = Some msg ->
                fst (GetToken (fst (NewVaultProvider svc a)) w)
                = Done ("", Some (VaultError msg)))
          /\ (forall sc auth, err = None -> sec = Some sc -> Auth sc = Some auth ->
                fst (GetToken (fst (NewVaultProvider svc a)) w)
                = Done (ClientToken auth, None))).
Proof.
  intros S svc a w. split.
  - intros Hk. unfold GetToken. rewrite isAdmin_NewVaultProvider.
    unfold IsAdmin. rewrite Hk. simpl. eexists. split; reflexivity.
  - intros Hk sec err s' HW. apply IsAdmin_false in Hk.
    unfold GetToken. rewrite isAdmin_NewVaultProvider, Hk.
    unfold logical_Write, fmt_Println, bind, issue, ret, throw, from_api.
    simpl. rewrite HW.
    destruct sec as [sc|], err as [msg|]; simpl;
      try (repeat split; try reflexivity; intros; congruence).
    destruct (Auth sc) as [auth|] eqn:EA; simpl;
      repeat split; try reflexivity; intros; congruence.
Qed.

Lemma GetToken_spec_witness :
  fst (GetToken (provider always_ok "vault" "role-1" "secret-1") (fresh tt))
  = Done ("token-1", None)
  /\ fst (GetToken (provider untouchable "vault" "role-1" "secret-1") (fresh tt))
     = Done ("", Some (VaultError "backend touched"))
  /\ exists e, GetToken (provider always_ok "vault" "admin" "secret-1") (fresh tt)
               = (Done ("", Some e), fresh tt) /\ PermissionDenied e = true.
Proof.
  split; [|split].
  - refine (proj2 (proj2 (proj2 (proj2 (GetToken_spec unit always_ok
              {| Provider := "vault"; Key := "role-1"; Secret := "secret-1" |}
              (fresh tt)) _ (Some ok_secret) None tt eq_refl))) ok_secret _ eq_refl eq_refl eq_refl).
    discriminate.
  - refine (proj1 (proj2 (proj2 (proj2 (GetToken_spec unit untouchable
              {| Provider := "vault"; Key := "role-1"; Secret := "secret-1" |}
              (fresh tt)) _ None (Some "backend touched") tt eq_refl))) _ eq_refl).
    discriminate.
  - apply (proj1 (GetToken_spec unit always_ok
              {| Provider := "vault"; Key := "admin"; Secret := "secret-1" |}
              (fresh tt))).
    reflexivity.
Defined.

(** ** Creating a project *)

Ltac finish_run :=
  unfold after, CreateProject_steps, step_policy; simpl;
  rewrite <- ?defaultVaultReadonlyPolicyAWS_stanza, <- ?app_assoc; reflexivity.

(** C4, as the code has it. With admin credentials CreateProject issues,
    in this order, (a) the write of the project's policy, (b) the write of
    the project identity with secret_id_ttl "8776h", token_max_ttl "10m",
    token_num_uses 3, token_no_default_policy "true" and token_policies
    the project's own policy name, (c) the forced write that generates the
    secretID, (d) the read of the roleID.  It stops at the first step whose
    answer carries an error and returns that error.  An answer of (c) or
    (d) without error and without its identifier (a nil secret, the field
    missing or not a string) makes it panic at that step, before any later
    step.  Otherwise it returns (roleID, secretID), the identifiers the
    answers of (d) and (c) carry.  In every case the calls issued are
    exactly the steps up to the one it stopped at and the backend is left
    as that step left it: nothing is rolled back. *)
Theorem CreateProject_steps_spec :
  forall (S : Type) (svc : vault_Client S) (a : Authorization) (name : string)
         (w : World S) (e1 : option string) (r2 r3 r4 : api_response)
         (s1 s2 s3 s4 : S),
    Key a = "admin" ->
    PutPolicy (Sys svc) (project_policy_name name)
              (policy_stanza (target_roles_pattern name) "read") (vault w) = (e1, s1) ->
    Write (Logical svc) (project_identity_path name) (identity_parameters name) s1
    = (r2, s2) ->
    Write (Logical svc) (project_identity_path name ++ "/secret-id")
          {[ "force" := VBool true ]} s2 = (r3, s3) ->
    Read (Logical svc) (project_identity_path name ++ "/role-id") s3 = (r4, s4) ->
    CreateProject (fst (NewVaultProvider svc a)) name w
    = match e1, snd r2, snd r3 with
      | Some m, _, _ =>
          (Done ("", "", Some (VaultError m)),
           after w s1 (firstn 1 (CreateProject_steps name)))
      | None, Some m, _ =>
          (Done ("", "", Some (VaultError m)),
           after w s2 (firstn 2 (CreateProject_steps name)))
      | None, None, Some m =>
          (Done ("", "", Some (VaultError m)),
           after w s3 (firstn 3 (CreateProject_steps name)))
      | None, None, None =>
          match identifier "secret_id" (fst r3) with
          | Panic p => (Panic p, after w s3 (firstn 3 (CreateProject_steps name)))
          | Done secretID =>
              match snd r4 with
              | Some m =>
                  (Done ("", "", Some (VaultError m)),
                   after w s4 (CreateProject_steps name))
              | None =>
                  match identifier "role_id" (fst r4) with
                  | Panic p => (Panic p, after w s4 (CreateProject_steps name))
                  | Done roleID =>
                      (Done (roleID, secretID, None),
                       after w s4 (CreateProject_steps name))
                  end
              end
          end
      end.
Proof.
  intros S svc a name w e1 [sec2 e2] [sec3 e3] [sec4 e4] s1 s2 s3 s4 Hk H1 H2 H3 H4.
  rewrite <- defaultVaultReadonlyPolicyAWS_stanza in H1.
  change (project_policy_name name) with (vaultProjectPrefix ++ "-" ++ name) in H1.
  change (project_identity_path name) with (genProjectAppRole name) in H2, H3, H4.
  change (identity_parameters name)
    with ({[ "secret_id_ttl" := VString vaultSecretTTL;
             "token_max_ttl" := VString vaultTokenMaxTTL;
             "token_no_default_policy" := VString "true";
             "token_num_uses" := VInt vaultTokenNumUses;
             "token_policies" := VString (vaultProjectPrefix ++ "-" ++ name) ]}
          : gmap string value) in H2.
  unfold CreateProject. rewrite isAdmin_NewVaultProvider. unfold IsAdmin. rewrite Hk.
  unfold createPolicyState, writeProjectState, readSecretID, readRoleID,
    logical_Write, logical_Read, sys_PutPolicy, bind, ret, throw, lift, from_api, issue.
  simpl. rewrite H1.
  destruct e1 as [m|]; simpl; [finish_run|]. rewrite H2.
  destruct e2 as [m|]; simpl; [finish_run|]. rewrite H3.
  destruct e3 as [m|]; simpl; [destruct sec3; finish_run|].
  unfold identifier, map_index.
  destruct sec3 as [sc3|]; simpl; [|finish_run].
  destruct (Data sc3 !! "secret_id") as [[| | |sid| |]|]; simpl; try finish_run.
  rewrite H4.
  destruct e4 as [m|]; simpl; [destruct sec4; finish_run|].
  destruct sec4 as [sc4|]; simpl; [|finish_run].
  destruct (Data sc4 !! "role_id") as [[| | |rid| |]|]; simpl; finish_run.
Qed.

Lemma ok_secret_ids :
  Data ok_secret !! "secret_id" = Some (VString "secret-1")
  /\ Data ok_secret !! "role_id" = Some (VString "role-1").
Proof. split; vm_compute; reflexivity. Qed.

Lemma CreateProject_steps_spec_witness :
  CreateProject (provider always_ok "vault" "admin" "s3cret") "proj1" (fresh tt)
  = (Done ("role-1", "secret-1", None),
     after (fresh tt) tt (CreateProject_steps "proj1")).
Proof.
  pose proof (CreateProject_steps_spec unit always_ok
                {| Provider := "vault"; Key := "admin"; Secret := "s3cret" |}
                "proj1" (fresh tt) None (Some ok_secret, None) (Some ok_secret, None)
                (Some ok_secret, None) tt tt tt tt
                eq_refl eq_refl eq_refl eq_refl eq_refl) as H.
  cbn [fst snd identifier] in H.
  rewrite (proj1 ok_secret_ids), (proj2 ok_secret_ids) in H. exact H.
Defined.

Lemma CreateProject_always_ok_calls :
  calls (snd (CreateProject (provider always_ok "vault" "admin" "s3cret")
                            "proj1" (fresh tt)))
  = [step_policy "proj1"; step_identity "proj1";
     step_secretID "proj1"; step_roleID "proj1"].
Proof. vm_compute. reflexivity. Qed.

(** C4 as stated fails on the order: the specification reads the roleID
    back before it generates the secretID, the code generates the secretID
    first.  On a backend where every step succeeds the third call is the
    forced write of [secret-id], the fourth the read of [role-id]. *)
Lemma CreateProject_order_counterexample :
  calls (snd (CreateProject (provider always_ok "vault" "admin" "s3cret")
                            "proj1" (fresh tt)))
  <> steps_as_specified "proj1"
  /\ nth_error (calls (snd (CreateProject (provider always_ok "vault" "admin" "s3cret")
                                          "proj1" (fresh tt)))) 2
     = Some (CallWrite "auth/approle/role/argo-cloudops-projects-proj1/secret-id"
                       {[ "force" := VBool true ]}).
Proof.
  rewrite CreateProject_always_ok_calls. split.
  - unfold steps_as_specified, step_roleID, step_secretID. intros H.
    injection H as H _. discriminate H.
  - reflexivity.
Qed.

(** ** Reading a target *)

Lemma GetTarget_policies_strings (acc : Slice.t string) (ps : list string) :
  GetTarget_policies acc (map VString ps)
  = Done (match ps with
          | [] => acc
          | _ => Slice.make (Slice.elements acc ++ ps)
          end).
Proof.
  revert acc. induction ps as [|x ps IH]; intros acc; [reflexivity|].
  simpl. rewrite IH. unfold Slice.append. simpl.
  destruct ps; [reflexivity|]. now rewrite <- app_assoc.
Qed.

Lemma GetTarget_policies_Done (acc r : Slice.t string) (l : list value) :
  GetTarget_policies acc l = Done r -> exists ps, l = map VString ps.
Proof.
  revert acc. induction l as [|x l IH]; intros acc H.
  - now exists [].
  - simpl in H. destruct x; simpl in H; try discriminate.
    destruct (IH _ H) as [ps ->]. now exists (s :: ps).
Qed.

Lemma GetTarget_cases {S} (v : VaultProvider S) (projectName targetName : string)
      (w : World S) (sec : vault_Secret) (s' : S) :
  isAdmin v = true ->
  Read (vaultLogicalSvc v) (target_path projectName targetName) (vault w)
  = ((Some sec, None), s') ->
  (exists props, target_data_shape (Data sec) props
                 /\ fst (GetTarget v projectName targetName w) = Done (props, None))
  \/ ((~ exists props, target_data_shape (Data sec) props)
      /\ exists p, fst (GetTarget v projectName targetName w) = Panic p).
Proof.
  intros Hadm HR. unfold GetTarget. rewrite Hadm.
  unfold logical_Read, bind, issue, ret, throw, lift, from_api. simpl.
  fold (target_path projectName targetName). rewrite HR. simpl.
  unfold target_data_shape, map_index.
  destruct (Data sec !! "role_arns") as [ra|] eqn:Era; simpl;
    [|right; split; [intros (? & ? & ? & H & _); discriminate | eauto]].
  destruct ra as [| | | | |roleArns]; simpl;
    try (right; split; [intros (? & ? & ? & H & _); discriminate | eauto]).
  destruct roleArns as [|first rest]; simpl;
    [right; split; [intros (? & ? & ? & H & _); discriminate | eauto]|].
  destruct first as [| | |roleArn| |]; simpl;
    try (right; split; [intros (? & ? & ? & H & _); discriminate | eauto]).
  destruct (Data sec !! "policy_arns") as [pa|] eqn:Epa; simpl;
    [|right; split; [intros (? & ? & ? & _ & H & _); discriminate | eauto]].
  destruct pa as [| | | | |policyArns]; simpl;
    try (right; split; [intros (? & ? & ? & _ & H & _); discriminate | eauto]).
  destruct (Data sec !! "credential_type") as [ct|] eqn:Ect; simpl;
    [|right; split; [intros (? & ? & ? & _ & _ & _ & H); discriminate | eauto]].
  destruct ct as [| | |credentialType| |]; simpl;
    try (right; split; [intros (? & ? & ? & _ & _ & _ & H); discriminate | eauto]).
  destruct (GetTarget_policies Slice.nil_slice policyArns) as [policies|p] eqn:Ep; simpl.
  - left. destruct (GetTarget_policies_Done _ _ _ Ep) as [ps ->].
    rewrite GetTarget_policies_strings in Ep. injection Ep as <-.
    eexists. split; [|reflexivity]. exists rest, ps. simpl.
    repeat split.
  - right. split; [|eauto]. intros (props & rest' & ps & _ & H & _).
    injection H as ->. now rewrite GetTarget_policies_strings in Ep.
Qed.

Lemma GetTarget_decodes {S} (v : VaultProvider S) (projectName targetName : string)
      (w : World S) (sec : vault_Secret) (s' : S) (props : TargetProperties) :
  isAdmin v = true ->
  Read (vaultLogicalSvc v) (target_path projectName targetName) (vault w)
  = ((Some sec, None), s') ->
  target_data_shape (Data sec) props ->
  fst (GetTarget v projectName targetName w) = Done (props, None).
Proof.
  intros Hadm HR (rest & ps & Hra & Hpa & Hps & Hct).
  unfold GetTarget. rewrite Hadm.
  unfold logical_Read, bind, issue, ret, throw, lift, from_api. simpl.
  fold (target_path projectName targetName). rewrite HR. simpl.
  unfold map_index. rewrite Hra, Hpa, Hct. simpl.
  rewrite GetTarget_policies_strings. simpl.
  destruct props as [ct pol ra]. simpl in *. subst pol. reflexivity.
Qed.

(** C7, as the code has it. When the backend answers the read of a target
    with a secret and no error, GetTarget decodes with unchecked type
    assertions: if [role_arns] is a list whose first element is a string,
    [policy_arns] a list of strings and [credential_type] a string, it
    returns the decoded properties and no error; for every other response
    data (a field missing or of another type, an empty [role_arns]) it
    panics.  It never returns an error result for such a response, and
    never a defaulted TargetProperties. *)
Theorem GetTarget_decoding :
  forall (S : Type) (svc : vault_Client S) (a : Authorization)
         (projectName targetName : string) (w : World S)
         (sec : vault_Secret) (s' : S),
    Key a = "admin" ->
    Read (Logical svc) (target_path projectName targetName) (vault w)
    = ((Some sec, None), s') ->
    (forall props, target_data_shape (Data sec) props ->
                   fst (GetTarget (fst (NewVaultProvider svc a)) projectName targetName w)
                   = Done (props, None))
    /\ ((~ exists props, target_data_shape (Data sec) props) ->
        exists p, fst (GetTarget (fst (NewVaultProvider svc a)) projectName targetName w)
                  = Panic p)
    /\ (forall props e,
           fst (GetTarget (fst (NewVaultProvider svc a)) projectName targetName w)
           <> Done (props, Some e))
    /\ (Data sec !! "role_arns" = None ->
        fst (GetTarget (fst (NewVaultProvider svc a)) projectName targetName w)
        = Panic TypeAssertion)
    /\ (Data sec !! "role_arns" = Some (VList []) ->
        fst (GetTarget (fst (NewVaultProvider svc a)) projectName targetName w)
        = Panic IndexOutOfRange).
Proof.
  intros S svc a projectName targetName w sec s' Hk HR.
  assert (isAdmin (fst (NewVaultProvider svc a)) = true) as Hadm.
  { rewrite isAdmin_NewVaultProvider. unfold IsAdmin. now rewrite Hk. }
  pose proof (GetTarget_cases (fst (NewVaultProvider svc a)) projectName targetName
                              w sec s' Hadm HR) as Hc.
  split; [|split; [|split; [|split]]].
  - intros props Hs. now apply (GetTarget_decodes _ _ _ _ sec s').
  - intros Hn. destruct Hc as [(props & Hs & _)|[_ Hp]]; [|exact Hp].
    exfalso. apply Hn. now exists props.
  - intros props e H. destruct Hc as [(props' & _ & H')|[_ [p H']]]; congruence.
  - intros Hra. unfold GetTarget. rewrite Hadm.
    unfold logical_Read, bind, issue, ret, throw, lift, from_api. simpl.
    fold (target_path projectName targetName). simpl in HR. rewrite HR. simpl.
    unfold map_index. rewrite Hra. reflexivity.
  - intros Hra. unfold GetTarget. rewrite Hadm.
    unfold logical_Read, bind, issue, ret, throw, lift, from_api. simpl.
    fold (target_path projectName targetName). simpl in HR. rewrite HR. simpl.
    unfold map_index. rewrite Hra. reflexivity.
Qed.

Lemma target_secret_shape : target_data_shape (Data target_secret) target_properties.
Proof.
  exists [], ["arn:aws:iam::1:policy/a"; "arn:aws:iam::1:policy/b"].
  repeat split; vm_compute; reflexivity.
Qed.

Lemma GetTarget_decoding_witness :
  fst (GetTarget (provider (canned (Some target_secret) None) "vault" "admin" "s3cret")
                 "proj1" "deploy" (fresh tt))
  = Done (target_properties, None).
Proof.
  apply (proj1 (GetTarget_decoding unit (canned (Some target_secret) None)
                  {| Provider := "vault"; Key := "admin"; Secret := "s3cret" |}
                  "proj1" "deploy" (fresh tt) target_secret tt eq_refl eq_refl)).
  exact target_secret_shape.
Defined.

(** C7 as stated fails: a response without [role_arns] makes GetTarget
    panic on the type assertion, it does not return an error; and a
    [role_arns] list that is not all strings is accepted as long as its
    first element is one. *)
Lemma GetTarget_decoding_counterexample :
  fst (GetTarget (provider (canned (Some {| Data := ∅; Auth := None |}) None)
                           "vault" "admin" "s3cret")
                 "proj1" "deploy" (fresh tt))
  = Panic TypeAssertion
  /\ (~ exists props e,
         fst (GetTarget (provider (canned (Some {| Data := ∅; Auth := None |}) None)
                                  "vault" "admin" "s3cret")
                        "proj1" "deploy" (fresh tt))
         = Done (props, Some e))
  /\ fst (GetTarget
            (provider
               (canned (Some {| Data := {[ "role_arns" := VList [VString "r"; VInt 7];
                                           "policy_arns" := VList [];
                                           "credential_type" := VString "iam_user" ]};
                                Auth := None |}) None)
               "vault" "admin" "s3cret")
            "proj1" "deploy" (fresh tt))
     = Done ({| CredentialType := "iam_user"; PolicyArns := Slice.nil_slice;
                RoleArn := "r" |}, None).
Proof.
  assert (fst (GetTarget (provider (canned (Some {| Data := ∅; Auth := None |}) None)
                                   "vault" "admin" "s3cret")
                         "proj1" "deploy" (fresh tt))
          = Panic TypeAssertion) as H by (vm_compute; reflexivity).
  split; [exact H|]. split.
  - rewrite H. intros (props & e & He). discriminate He.
  - vm_compute. reflexivity.
Qed.

(** ** Target round trip *)






(** ** Listing targets *)

Lemma ListTargets_loop_cons (project : string) (acc : Slice.t string)
      (k : string) (rest : list value) :
  ListTargets_loop project acc (VString k :: rest)
  = if strings.HasPrefix k (target_prefix project) then
      ListTargets_loop project
        (Slice.append acc (strings.Replace k (target_prefix project) "" 1)) rest
    else ListTargets_loop project acc rest.
Proof. reflexivity. Qed.

Lemma target_names_cons (project k : string) (keys : list string) :
  target_names project (k :: keys)
  = if strings.HasPrefix k (target_prefix project) then
      strings.from (String.length (target_prefix project)) k :: target_names project keys
    else target_names project keys.
Proof.
  unfold target_names, project_keys. cbn [List.filter].
  destruct (strings.HasPrefix k (target_prefix project)); reflexivity.
Qed.

Lemma ListTargets_loop_strings (project : string) (l keys : list string) :
  ListTargets_loop project (Slice.make l) (map VString keys)
  = Done (Slice.make (l ++ target_names project keys)).
Proof.
  revert l. induction keys as [|k keys IH]; intros l.
  - cbn [map ListTargets_loop]. unfold target_names, project_keys. cbn [List.filter map].
    now rewrite app_nil_r.
  - change (map VString (k :: keys)) with (VString k :: map VString keys).
    rewrite ListTargets_loop_cons, target_names_cons.
    destruct (strings.HasPrefix k (target_prefix project)) eqn:E; [|apply IH].
    rewrite (Replace_prefix _ _ E). unfold Slice.append. cbn [Slice.elements].
    rewrite IH, <- app_assoc. reflexivity.
Qed.

Lemma target_names_prefixed (project : string) (keys : list string) :
  map (fun n => target_prefix project ++ n) (target_names project keys)
  = project_keys project keys.
Proof.
  induction keys as [|k keys IH]; [reflexivity|].
  rewrite target_names_cons. unfold project_keys in *. cbn [List.filter].
  destruct (strings.HasPrefix k (target_prefix project)) eqn:E; [|exact IH].
  cbn [map]. rewrite IH. f_equal. symmetry. now apply HasPrefix_split.
Qed.

Lemma ListTargets_loop_not_nil (project : string) (ks : list value)
      (acc l' : Slice.t string) :
  ListTargets_loop project acc ks = Done l' ->
  Slice.is_nil acc = false -> Slice.is_nil l' = false.
Proof.
  revert acc. induction ks as [|k ks IH]; intros acc H Hacc.
  - cbn [ListTargets_loop] in H. now injection H as <-.
  - destruct k as [| | |k| |]; try discriminate H.
    rewrite ListTargets_loop_cons in H.
    destruct (strings.HasPrefix k (target_prefix project)).
    + now apply (IH _ H).
    + now apply (IH _ H).
Qed.

Lemma ListTargets_loop_bad_key (project : string) (keys : list value)
      (acc : Slice.t string) :
  (exists x, In x keys /\ forall s, x <> VString s) ->
  ListTargets_loop project acc keys = Panic TypeAssertion.
Proof.
  revert acc. induction keys as [|k keys IH]; intros acc (x & Hin & Hx).
  - destruct Hin.
  - destruct k as [| | |s| |];
      try reflexivity.
    rewrite ListTargets_loop_cons.
    assert (exists x, In x keys /\ forall s, x <> VString s) as Hrest.
    { destruct Hin as [<-|Hin]; [now destruct (Hx s)|]. now exists x. }
    destruct (strings.HasPrefix s (target_prefix project)); now apply IH.
Qed.

(** C8, as the code has it. With admin credentials, when the backend list
    of ["aws/roles/"] succeeds, ListTargets returns a non-nil sequence and
    no error: the empty sequence when the backend returns no secret, and,
    when the secret's [keys] field is a list of strings, exactly the keys
    that start with ["argo-cloudops-projects-<project>-target-"], in
    order, with that prefix cut off (so the empty sequence again when the
    list is empty or none matches).  Whenever it returns without error
    the sequence is not nil.  When the backend returns a secret whose
    [keys] field is missing or is not a list, or holds an element that is
    not a string, ListTargets panics on its type assertion. *)
Theorem ListTargets_spec :
  forall (S : Type) (svc : vault_Client S) (a : Authorization) (project : string)
         (w : World S) (sec : option vault_Secret) (s' : S),
    Key a = "admin" ->
    List (Logical svc) "aws/roles/" (vault w) = ((sec, None), s') ->
    (sec = None ->
     fst (ListTargets (fst (NewVaultProvider svc a)) project w)
     = Done (Slice.make [], None))
    /\ (forall (sc : vault_Secret) (keys : list string),
           sec = Some sc -> Data sc !! "keys" = Some (VList (map VString keys)) ->
           fst (ListTargets (fst (NewVaultProvider svc a)) project w)
           = Done (Slice.make (target_names project keys), None)
           /\ map (fun n => "argo-cloudops-projects-" ++ project ++ "-target-" ++ n)
                  (target_names project keys)
              = List.filter
                  (fun k => strings.HasPrefix
                              k ("argo-cloudops-projects-" ++ project ++ "-target-"))
                  keys
           /\ (project_keys project keys = [] ->
               fst (ListTargets (fst (NewVaultProvider svc a)) project w)
               = Done (Slice.make [], None)))
    /\ (forall r, fst (ListTargets (fst (NewVaultProvider svc a)) project w) = Done r ->
                  Slice.is_nil (fst r) = false /\ snd r = None)
    /\ (forall sc : vault_Secret,
           sec = Some sc -> (forall l, Data sc !! "keys" <> Some (VList l)) ->
           fst (ListTargets (fst (NewVaultProvider svc a)) project w)
           = Panic TypeAssertion)
    /\ (forall (sc : vault_Secret) (l : list value) (x : value),
           sec = Some sc -> Data sc !! "keys" = Some (VList l) ->
           In x l -> (forall s, x <> VString s) ->
           fst (ListTargets (fst (NewVaultProvider svc a)) project w)
           = Panic TypeAssertion).
Proof.
  intros S svc a project w sec s' Hk HL.
  assert (isAdmin (fst (NewVaultProvider svc a)) = true) as Hadm.
  { rewrite isAdmin_NewVaultProvider. unfold IsAdmin. now rewrite Hk. }
  assert (forall sc keys,
             sec = Some sc -> Data sc !! "keys" = Some (VList (map VString keys)) ->
             fst (ListTargets (fst (NewVaultProvider svc a)) project w)
             = Done (Slice.make (target_names project keys), None)) as Hsome.
  { intros sc keys -> Hkeys. unfold ListTargets. rewrite Hadm.
    unfold logical_List, bind, issue, ret, throw, lift, from_api. simpl.
    simpl in HL. rewrite HL. simpl. unfold map_index. rewrite Hkeys. simpl.
    now rewrite ListTargets_loop_strings. }
  split; [|split; [|split; [|split]]].
  - intros ->. unfold ListTargets. rewrite Hadm.
    unfold logical_List, bind, issue, ret, throw, lift, from_api. simpl.
    simpl in HL. rewrite HL. reflexivity.
  - intros sc keys Hsec Hkeys. split; [now apply (Hsome sc)|]. split.
    + etransitivity; [|apply (target_names_prefixed project keys)].
      apply map_ext. intros n. unfold target_prefix. now rewrite !app_assoc_s.
    + intros Hnone. rewrite (Hsome sc keys Hsec Hkeys).
      unfold target_names. now rewrite Hnone.
  - intros r. unfold ListTargets. rewrite Hadm.
    unfold logical_List, bind, issue, ret, throw, lift, from_api. simpl.
    simpl in HL. rewrite HL. simpl.
    destruct sec as [sc|]; simpl; [|intros [= <-]; now split].
    destruct (assert_slice (map_index (Data sc) "keys")) as [keys|]; simpl;
      [|discriminate].
    destruct (ListTargets_loop project (Slice.make []) keys) as [l|] eqn:El; simpl;
      [|discriminate].
    intros [= <-]. split; [|reflexivity]. cbn [fst].
    now apply (ListTargets_loop_not_nil project keys (Slice.make []) l El).
  - intros sc -> Hno. unfold ListTargets. rewrite Hadm.
    unfold logical_List, bind, issue, ret, throw, lift, from_api. simpl.
    simpl in HL. rewrite HL. simpl. unfold map_index.
    destruct (Data sc !! "keys") as [[| | | | |l]|] eqn:E; try reflexivity.
    now destruct (Hno l).
  - intros sc l x -> Hl Hin Hx. unfold ListTargets. rewrite Hadm.
    unfold logical_List, bind, issue, ret, throw, lift, from_api. simpl.
    simpl in HL. rewrite HL. simpl. unfold map_index. rewrite Hl. simpl.
    rewrite (ListTargets_loop_bad_key project l (Slice.make [])); [reflexivity|].
    now exists x.
Qed.

Lemma ListTargets_spec_witness :
  fst (ListTargets (provider always_ok "vault" "admin" "s3cret") "proj1" (fresh tt))
  = Done (Slice.make ["a"; "b"], None)
  /\ fst (ListTargets (provider (canned None None) "vault" "admin" "s3cret")
                      "proj1" (fresh tt))
     = Done (Slice.make [], None).
Proof.
  split.
  - refine (proj1 (proj1 (proj2 (ListTargets_spec unit always_ok
              {| Provider := "vault"; Key := "admin"; Secret := "s3cret" |}
              "proj1" (fresh tt) (Some ok_secret) tt eq_refl eq_refl))
              ok_secret
              ["argo-cloudops-projects-proj1-target-a";
               "argo-cloudops-projects-proj1-target-b";
               "argo-cloudops-projects-proj2-target-c"] eq_refl _)).
    vm_compute. reflexivity.
  - apply (proj1 (ListTargets_spec unit (canned None None)
              {| Provider := "vault"; Key := "admin"; Secret := "s3cret" |}
              "proj1" (fresh tt) None tt eq_refl eq_refl)).
    reflexivity.
Defined.

(** C8 as stated fails: a successful list may answer with a secret that
    holds no [keys] field; ListTargets then panics on its type assertion
    where the claim has it return the empty sequence. *)
Lemma ListTargets_no_keys_counterexample :
  fst (ListTargets (provider (canned (Some {| Data := ∅; Auth := None |}) None)
                             "vault" "admin" "s3cret") "proj1" (fresh tt))
  = Panic TypeAssertion
  /\ fst (ListTargets (provider (canned (Some {| Data := ∅; Auth := None |}) None)
                                "vault" "admin" "s3cret") "proj1" (fresh tt))
     <> Done (Slice.make [], None).
Proof.
  assert (fst (ListTargets (provider (canned (Some {| Data := ∅; Auth := None |}) None)
                                     "vault" "admin" "s3cret") "proj1" (fresh tt))
          = Panic TypeAssertion) as H by (vm_compute; reflexivity).
  split; [exact H|]. rewrite H. discriminate.
Qed.

(** ** Nil responses *)

Lemma invoke_nil_backend {A} (op : Op A) (provider_ key secret : string) :
  panics (invoke (provider nil_backend provider_ key secret) op (fresh tt))
  = dereferences_unguarded op key.
Proof.
  unfold panics, dereferences_unguarded, provider.
  destruct op; unfold invoke;
    [ unfold CreateProject | unfold CreateTarget | unfold DeleteProject
    | unfold DeleteTarget | unfold GetProject | unfold GetTarget | unfold GetToken
    | unfold ListTargets | unfold ProjectExists, GetProject | unfold TargetExists ];
    rewrite ?isAdmin_NewVaultProvider; unfold IsAdmin; cbn [Key];
    destruct (String.eqb key "admin"); reflexivity.
Qed.

(** C10. When a backend call succeeds with a nil secret and a nil error:
    GetToken (tenant credentials) panics on a nil dereference, and so do
    readSecretID and readRoleID, hence CreateProject (admin credentials)
    when the forced write of the secretID, or after it the read of the
    roleID, answers nil; GetProject returns [ErrNotFound], GetTarget
    returns its not-found error and ListTargets the empty sequence.  On
    the backend that answers every call with nil, nil the methods that
    panic are exactly GetToken and CreateProject. *)
Theorem nil_secret_behaviour :
  forall (S : Type) (svc : vault_Client S) (a : Authorization)
         (name targetName : string) (w : World S) (s' : S),
    (Key a <> "admin" ->
     Write (Logical svc) "auth/approle/login"
           {[ "role_id" := VString (Key a); "secret_id" := VString (Secret a) ]}
           (vault w) = ((None, None), s') ->
     fst (GetToken (fst (NewVaultProvider svc a)) w) = Panic NilDereference)
    /\ (Write (Logical svc) (project_identity_path name ++ "/secret-id")
              {[ "force" := VBool true ]} (vault w) = ((None, None), s') ->
        fst (readSecretID (fst (NewVaultProvider svc a)) name w) = Panic NilDereference)
    /\ (Read (Logical svc) (project_identity_path name ++ "/role-id") (vault w)
        = ((None, None), s') ->
        fst (readRoleID (fst (NewVaultProvider svc a)) name w) = Panic NilDereference)
    /\ (Key a = "admin" ->
        forall (sec2 : option vault_Secret) (s1 s2 : S),
          PutPolicy (Sys svc) (project_policy_name name)
                    (policy_stanza (target_roles_pattern name) "read") (vault w)
          = (None, s1) ->
          Write (Logical svc) (project_identity_path name) (identity_parameters name) s1
          = ((sec2, None), s2) ->
          (Write (Logical svc) (project_identity_path name ++ "/secret-id")
                 {[ "force" := VBool true ]} s2 = ((None, None), s') ->
           fst (CreateProject (fst (NewVaultProvider svc a)) name w)
           = Panic NilDereference)
          /\ (forall (sec3 : vault_Secret) (secretID : string) (s3 : S),
                 Write (Logical svc) (project_identity_path name ++ "/secret-id")
                       {[ "force" := VBool true ]} s2 = ((Some sec3, None), s3) ->
                 Data sec3 !! "secret_id" = Some (VString secretID) ->
                 Read (Logical svc) (project_identity_path name ++ "/role-id") s3
                 = ((None, None), s') ->
                 fst (CreateProject (fst (NewVaultProvider svc a)) name w)
                 = Panic NilDereference))
    /\ (Read (Logical svc) (project_identity_path name) (vault w) = ((None, None), s') ->
        fst (GetProject (fst (NewVaultProvider svc a)) name w)
        = Done ("", Some ErrNotFound))
    /\ (Key a = "admin" ->
        Read (Logical svc) (target_path name targetName) (vault w) = ((None, None), s') ->
        fst (GetTarget (fst (NewVaultProvider svc a)) name targetName w)
        = Done ({| CredentialType := ""; PolicyArns := Slice.nil_slice; RoleArn := "" |},
                Some (errors_New "target not found")))
    /\ (Key a = "admin" ->
        List (Logical svc) "aws/roles/" (vault w) = ((None, None), s') ->
        fst (ListTargets (fst (NewVaultProvider svc a)) name w)
        = Done (Slice.make [], None))
    /\ (forall (A : Type) (op : Op A),
           panics (invoke (provider nil_backend (Provider a) (Key a) (Secret a))
                          op (fresh tt))
           = dereferences_unguarded op (Key a)).
Proof.
  intros S svc a name targetName w s'.
  assert (Key a = "admin" -> isAdmin (fst (NewVaultProvider svc a)) = true) as Hadm.
  { intros Hk. rewrite isAdmin_NewVaultProvider. unfold IsAdmin. now rewrite Hk. }
  repeat apply conj.
  - intros Hk HW. apply IsAdmin_false in Hk.
    unfold GetToken. rewrite isAdmin_NewVaultProvider, Hk.
    unfold logical_Write, bind, issue, ret, throw, from_api. simpl.
    simpl in HW. rewrite HW. reflexivity.
  - intros HW. unfold readSecretID, logical_Write, bind, issue, ret, throw, from_api.
    simpl. change (genProjectAppRole name) with (project_identity_path name).
    simpl in HW. rewrite HW. reflexivity.
  - intros HR. unfold readRoleID, logical_Read, bind, issue, ret, throw, from_api.
    simpl. change (genProjectAppRole name) with (project_identity_path name).
    simpl in HR. rewrite HR. reflexivity.
  - intros Hk sec2 s1 s2 H1 H2.
    rewrite <- defaultVaultReadonlyPolicyAWS_stanza in H1.
    change (project_policy_name name) with (vaultProjectPrefix ++ "-" ++ name) in H1.
    change (project_identity_path name) with (genProjectAppRole name) in *.
    change (identity_parameters name)
      with ({[ "secret_id_ttl" := VString vaultSecretTTL;
               "token_max_ttl" := VString vaultTokenMaxTTL;
               "token_no_default_policy" := VString "true";
               "token_num_uses" := VInt vaultTokenNumUses;
               "token_policies" := VString (vaultProjectPrefix ++ "-" ++ name) ]}
            : gmap string value) in H2.
    split.
    + intros H3. unfold CreateProject. rewrite (Hadm Hk).
      unfold createPolicyState, writeProjectState, readSecretID, readRoleID,
        logical_Write, logical_Read, sys_PutPolicy, bind, ret, throw, lift, from_api, issue.
      simpl. rewrite H1. simpl. rewrite H2. simpl. rewrite H3. reflexivity.
    + intros sec3 secretID s3 H3 Hsid H4. unfold CreateProject. rewrite (Hadm Hk).
      unfold createPolicyState, writeProjectState, readSecretID, readRoleID,
        logical_Write, logical_Read, sys_PutPolicy, bind, ret, throw, lift, from_api, issue.
      simpl. rewrite H1. simpl. rewrite H2. simpl. rewrite H3. simpl.
      unfold map_index. rewrite Hsid. simpl. rewrite H4. reflexivity.
  - intros HR. unfold GetProject, logical_Read, bind, issue, ret, from_api. simpl.
    change (genProjectAppRole name) with (project_identity_path name).
    simpl in HR. rewrite HR. reflexivity.
  - intros Hk HR. unfold GetTarget. rewrite (Hadm Hk).
    unfold logical_Read, bind, issue, ret, from_api. simpl.
    fold (target_path name targetName). simpl in HR. rewrite HR. reflexivity.
  - intros Hk HL. unfold ListTargets. rewrite (Hadm Hk).
    unfold logical_List, bind, issue, ret, from_api. simpl.
    simpl in HL. rewrite HL. reflexivity.
  - intros A op. apply invoke_nil_backend.
Qed.

Lemma nil_secret_behaviour_witness :
  fst (GetToken (provider nil_backend "vault" "role-1" "secret-1") (fresh tt))
  = Panic NilDereference
  /\ fst (CreateProject (provider nil_backend "vault" "admin" "s3cret") "proj1" (fresh tt))
     = Panic NilDereference
  /\ fst (GetTarget (provider nil_backend "vault" "admin" "s3cret") "proj1" "deploy"
                    (fresh tt))
     = Done ({| CredentialType := ""; PolicyArns := Slice.nil_slice; RoleArn := "" |},
             Some (errors_New "target not found")).
Proof.
  split; [|split].
  - refine (proj1 (nil_secret_behaviour unit nil_backend
              {| Provider := "vault"; Key := "role-1"; Secret := "secret-1" |}
              "proj1" "deploy" (fresh tt) tt) _ eq_refl).
    discriminate.
  - exact (proj1 (proj1 (proj2 (proj2 (proj2 (nil_secret_behaviour unit nil_backend
              {| Provider := "vault"; Key := "admin"; Secret := "s3cret" |}
              "proj1" "deploy" (fresh tt) tt)))) eq_refl None tt tt eq_refl eq_refl)
             eq_refl).
  - exact (proj1 (proj2 (proj2 (proj2 (proj2 (proj2 (nil_secret_behaviour unit nil_backend
              {| Provider := "vault"; Key := "admin"; Secret := "s3cret" |}
              "proj1" "deploy" (fresh tt) tt)))))) eq_refl eq_refl).
Defined.

(** * Further properties *)

(** ** The calls a method makes *)

Ltac close_trace :=
  unfold script, CreateProject_steps, step_policy, step_identity, step_secretID,
    step_roleID;
  first
    [ exists 0%nat; cbn [firstn]; rewrite app_nil_r; reflexivity
    | exists 1%nat; cbn [firstn]; rewrite <- ?defaultVaultReadonlyPolicyAWS_stanza;
      reflexivity
    | exists 2%nat; cbn [firstn]; rewrite <- ?defaultVaultReadonlyPolicyAWS_stanza,
        <- ?app_assoc; reflexivity
    | exists 3%nat; cbn [firstn]; rewrite <- ?defaultVaultReadonlyPolicyAWS_stanza,
        <- ?app_assoc; reflexivity
    | exists 4%nat; cbn [firstn]; rewrite <- ?defaultVaultReadonlyPolicyAWS_stanza,
        <- ?app_assoc; reflexivity ].

(** X1. Whatever the backend answers, the calls a method issues are the first
    few of a fixed sequence that depends only on the method's arguments
    (for GetToken, on the bound credentials): the answers decide how far
    the method gets, never which call comes next or with which arguments.
    In particular the earlier calls stay in the log, CreateProject issues
    at most four calls, DeleteProject at most two, TargetExists none and
    every other method at most one, and the reading methods never issue a
    write, a delete or a policy change. *)
Theorem calls_follow_script :
  forall (S : Type) (v : VaultProvider S) (A : Type) (op : Op A) (w : World S),
  exists n : nat,
    calls (snd (invoke v op w)) = (calls w ++ firstn n (script v op))%list.
Proof.
  intros S v A op w.
  destruct op; unfold invoke;
    [ unfold CreateProject, createPolicyState, writeProjectState, readSecretID, readRoleID
    | unfold CreateTarget | unfold DeleteProject, deletePolicyState | unfold DeleteTarget
    | unfold GetProject | unfold GetTarget | unfold GetToken | unfold ListTargets
    | unfold ProjectExists, GetProject | unfold TargetExists ];
    try destruct (isAdmin v); simpl;
    unfold logical_Read, logical_Write, logical_Delete, logical_List,
      sys_PutPolicy, sys_DeletePolicy, fmt_Println, bind, issue, ret, throw, lift,
      from_api;
    simpl; try close_trace;
    repeat (first [call_backend | break_inner]; simpl; try close_trace).
Qed.

(** ** Standard output *)

(** X2. The provider prints in one place only: GetToken prints the message of
    the backend error when the login write fails.  Every other method, and
    GetToken when it is refused or when the login succeeds, leaves standard
    output as it was; in particular the bound credentials are never
    printed by the provider itself. *)
Theorem output_only_on_failed_login :
  forall (S : Type) (v : VaultProvider S) (A : Type) (op : Op A) (w : World S),
    (uses_secret op = false -> stdout (snd (invoke v op w)) = stdout w)
    /\ (forall (sec : option vault_Secret) (err : option string) (s' : S),
           Write (vaultLogicalSvc v) "auth/approle/login"
                 {[ "role_id" := VString (roleID v); "secret_id" := VString (secretID v) ]}
                 (vault w) = ((sec, err), s') ->
           stdout (snd (GetToken v w))
           = if isAdmin v then stdout w
             else (stdout w ++ match err with
                               | Some msg => [msg]
                               | None => []
                               end)%list).
Proof.
  intros S v A op w. split.
  - intros Hs.
    destruct op; try discriminate Hs; unfold invoke;
      [ unfold CreateProject, createPolicyState, writeProjectState, readSecretID, readRoleID
      | unfold CreateTarget | unfold DeleteProject, deletePolicyState | unfold DeleteTarget
      | unfold GetProject | unfold GetTarget | unfold ListTargets
      | unfold ProjectExists, GetProject | unfold TargetExists ];
      try destruct (isAdmin v); simpl; try reflexivity;
      run_provider; reflexivity.
  - intros sec err s' HW. unfold GetToken. destruct (isAdmin v); [reflexivity|].
    unfold logical_Write, fmt_Println, bind, issue, ret, throw, from_api. simpl.
    rewrite HW. destruct sec as [sc|], err as [msg|]; simpl;
      rewrite ?app_nil_r; try reflexivity.
    destruct (Auth sc); reflexivity.
Qed.

Lemma output_only_on_failed_login_witness :
  stdout (snd (GetToken (provider untouchable "vault" "role-1" "secret-1") (fresh tt)))
  = ["backend touched"]
  /\ stdout (snd (invoke (provider untouchable "vault" "admin" "secret-1")
                         (OpDeleteProject "proj1") (fresh tt))) = [].
Proof.
  split.
  - exact (proj2 (output_only_on_failed_login unit
                    (provider untouchable "vault" "role-1" "secret-1")
                    _ OpGetToken (fresh tt))
                 None (Some "backend touched") tt eq_refl).
  - exact (proj1 (output_only_on_failed_login unit
                    (provider untouchable "vault" "admin" "secret-1")
                    _ (OpDeleteProject "proj1") (fresh tt)) eq_refl).
Defined.

(** ** Project lookup *)

(** X3. GetProject and ProjectExists, for any credentials, make one read of
    the project's identity path and map its answer as follows.  A backend
    error wins over whatever secret comes with it: GetProject returns it
    wrapped as ["vault get project error: <message>"] and ProjectExists
    returns false with that same wrapped error.  A nil secret without
    error makes GetProject return the [ErrNotFound] sentinel, which
    ProjectExists turns into false without error.  Any secret without
    error makes GetProject return the descriptor [{"name":"<project>"}]
    and ProjectExists true.  ProjectExists never returns [ErrNotFound]. *)
Theorem project_lookup :
  forall (S : Type) (v : VaultProvider S) (name : string) (w : World S)
         (sec : option vault_Secret) (err : option string) (s' : S),
    Read (vaultLogicalSvc v) ("auth/approle/role/argo-cloudops-projects-" ++ name)
         (vault w) = ((sec, err), s') ->
    GetProject v name w
    = (Done match err, sec with
            | Some msg, _ => ("", Some (errors_New ("vault get project error: " ++ msg)))
            | None, None => ("", Some ErrNotFound)
            | None, Some _ =>
                ("{" ++ dq ++ "name" ++ dq ++ ":" ++ dq ++ name ++ dq ++ "}", None)
            end,
       after w s' [CallRead ("auth/approle/role/argo-cloudops-projects-" ++ name)])
    /\ ProjectExists v name w
       = (Done match err, sec with
               | Some msg, _ =>
                   (false, Some (errors_New ("vault get project error: " ++ msg)))
               | None, None => (false, None)
               | None, Some _ => (true, None)
               end,
          after w s' [CallRead ("auth/approle/role/argo-cloudops-projects-" ++ name)])
    /\ (forall b, fst (ProjectExists v name w) <> Done (b, Some ErrNotFound)).
Proof.
  intros S v name w sec err s' HR.
  change ("auth/approle/role/argo-cloudops-projects-" ++ name)
    with (genProjectAppRole name) in *.
  assert (GetProject v name w
          = (Done match err, sec with
                  | Some msg, _ =>
                      ("", Some (errors_New ("vault get project error: " ++ msg)))
                  | None, None => ("", Some ErrNotFound)
                  | None, Some _ =>
                      ("{" ++ dq ++ "name" ++ dq ++ ":" ++ dq ++ name ++ dq ++ "}", None)
                  end,
             after w s' [CallRead (genProjectAppRole name)])) as HG.
  { unfold GetProject, logical_Read, bind, issue, ret, from_api. simpl.
    rewrite HR. destruct sec, err; reflexivity. }
  split; [exact HG|].
  assert (ProjectExists v name w
          = (Done match err, sec with
                  | Some msg, _ =>
                      (false, Some (errors_New ("vault get project error: " ++ msg)))
                  | None, None => (false, None)
                  | None, Some _ => (true, None)
                  end,
             after w s' [CallRead (genProjectAppRole name)])) as HP.
  { unfold ProjectExists, bind. rewrite HG. destruct sec, err; reflexivity. }
  split; [exact HP|].
  intros b. rewrite HP. destruct sec, err; simpl; congruence.
Qed.

Lemma project_lookup_witness :
  fst (ProjectExists (provider nil_backend "vault" "tenant" "s3cret") "proj1" (fresh tt))
  = Done (false, None)
  /\ fst (ProjectExists (provider always_ok "vault" "tenant" "s3cret") "proj1" (fresh tt))
     = Done (true, None).
Proof.
  split.
  - exact (f_equal fst
             (proj1 (proj2 (project_lookup unit
                       (provider nil_backend "vault" "tenant" "s3cret")
                       "proj1" (fresh tt) None None tt eq_refl)))).
  - exact (f_equal fst
             (proj1 (proj2 (project_lookup unit
                       (provider always_ok "vault" "tenant" "s3cret")
                       "proj1" (fresh tt) (Some ok_secret) None tt eq_refl)))).
Defined.

(** ** Deleting a project *)

(** X4. With admin credentials DeleteProject first deletes the project's
    policy and then the project's identity.  When the policy deletion
    fails the identity is not touched; either failure is returned wrapped
    as ["vault delete project error: <message>"]; a policy already deleted
    stays deleted when the identity deletion fails.  When both succeed the
    result is nil, whatever secret the backend returns. *)
Theorem DeleteProject_steps :
  forall (S : Type) (v : VaultProvider S) (name : string) (w : World S)
         (e1 : option string) (r2 : api_response) (s1 s2 : S),
    isAdmin v = true ->
    DeletePolicy (vaultSysSvc v) ("argo-cloudops-projects-" ++ name) (vault w) = (e1, s1) ->
    Delete (vaultLogicalSvc v) ("auth/approle/role/argo-cloudops-projects-" ++ name) s1
    = (r2, s2) ->
    DeleteProject v name w
    = match e1, snd r2 with
      | Some m, _ =>
          (Done (Some (errors_New ("vault delete project error: " ++ m))),
           after w s1 [CallDeletePolicy ("argo-cloudops-projects-" ++ name)])
      | None, Some m =>
          (Done (Some (errors_New ("vault delete project error: " ++ m))),
           after w s2 [CallDeletePolicy ("argo-cloudops-projects-" ++ name);
                       CallDelete ("auth/approle/role/argo-cloudops-projects-" ++ name)])
      | None, None =>
          (Done None,
           after w s2 [CallDeletePolicy ("argo-cloudops-projects-" ++ name);
                       CallDelete ("auth/approle/role/argo-cloudops-projects-" ++ name)])
      end.
Proof.
  intros S v name w e1 [sec2 e2] s1 s2 Hadm H1 H2.
  change ("auth/approle/role/argo-cloudops-projects-" ++ name)
    with (genProjectAppRole name) in *.
  change ("argo-cloudops-projects-" ++ name) with (vaultProjectPrefix ++ "-" ++ name) in *.
  unfold DeleteProject. rewrite Hadm.
  unfold deletePolicyState, sys_DeletePolicy, logical_Delete, bind, issue, ret, from_api.
  simpl. rewrite H1. destruct e1 as [m|]; simpl; [reflexivity|].
  rewrite H2. unfold after. simpl. rewrite <- app_assoc.
  destruct e2 as [m|]; reflexivity.
Qed.

Lemma DeleteProject_steps_witness :
  DeleteProject (provider untouchable "vault" "admin" "s3cret") "proj1" (fresh tt)
  = (Done (Some (errors_New "vault delete project error: backend touched")),
     after (fresh tt) tt [CallDeletePolicy "argo-cloudops-projects-proj1"]).
Proof.
  exact (DeleteProject_steps unit (provider untouchable "vault" "admin" "s3cret")
           "proj1" (fresh tt) (Some "backend touched") (None, Some "backend touched")
           tt tt eq_refl eq_refl eq_refl).
Defined.

(** ** Target paths *)

Lemma target_path_shift (p t1 t2 : string) :
  target_path p (t1 ++ "-target-" ++ t2) = target_path (p ++ "-target-" ++ t1) t2.
Proof. unfold target_path. now rewrite !app_assoc_s. Qed.

Lemma GetTarget_path {S} (v : VaultProvider S) (p t p' t' : string) (w : World S) :
  target_path p t = target_path p' t' -> GetTarget v p t w = GetTarget v p' t' w.
Proof.
  intros H. unfold GetTarget.
  change ("aws/roles/argo-cloudops-projects-" ++ p ++ "-target-" ++ t)
    with (target_path p t).
  change ("aws/roles/argo-cloudops-projects-" ++ p' ++ "-target-" ++ t')
    with (target_path p' t').
  now rewrite H.
Qed.

Lemma DeleteTarget_path {S} (v : VaultProvider S) (p t p' t' : string) (w : World S) :
  target_path p t = target_path p' t' -> DeleteTarget v p t w = DeleteTarget v p' t' w.
Proof.
  intros H. unfold DeleteTarget.
  change ("aws/roles/" ++ vaultProjectPrefix ++ "-" ++ p ++ "-target-" ++ t)
    with (target_path p t).
  change ("aws/roles/" ++ vaultProjectPrefix ++ "-" ++ p' ++ "-target-" ++ t')
    with (target_path p' t').
  now rewrite H.
Qed.

Lemma CreateTarget_path {S} (v : VaultProvider S) (p p' : string)
      (ctr ctr' : CreateTargetRequest) (w : World S) :
  target_path p (Name ctr) = target_path p' (Name ctr') ->
  Properties ctr = Properties ctr' ->
  CreateTarget v p ctr w = CreateTarget v p' ctr' w.
Proof.
  intros H HP. unfold CreateTarget.
  change ("aws/roles/" ++ vaultProjectPrefix ++ "-" ++ p ++ "-target-" ++ Name ctr)
    with (target_path p (Name ctr)).
  change ("aws/roles/" ++ vaultProjectPrefix ++ "-" ++ p' ++ "-target-" ++ Name ctr')
    with (target_path p' (Name ctr')).
  now rewrite H, HP.
Qed.

Lemma ListTargets_lists {S} (v : VaultProvider S) (project : string) (w : World S)
      (sc : vault_Secret) (keys : list string) (s' : S) :
  isAdmin v = true ->
  List (vaultLogicalSvc v) "aws/roles/" (vault w) = ((Some sc, None), s') ->
  Data sc !! "keys" = Some (VList (map VString keys)) ->
  fst (ListTargets v project w) = Done (Slice.make (target_names project keys), None).
Proof.
  intros Hadm HL Hkeys. unfold ListTargets. rewrite Hadm.
  unfold logical_List, bind, issue, ret, throw, lift, from_api. simpl.
  rewrite HL. simpl. unfold map_index. rewrite Hkeys. simpl.
  now rewrite ListTargets_loop_strings.
Qed.

Lemma target_names_one (p name : string) :
  target_names p [target_prefix p ++ name] = [name].
Proof.
  rewrite target_names_cons, HasPrefix_app, from_app. reflexivity.
Qed.

(** X5. The backend path of a target is the project name and the target name
    glued with ["-target-"], so it does not tell a project from a longer
    project name that continues with ["-target-"]: the target
    [t1-target-t2] of project [p] and the target [t2] of project
    [p-target-t1] are the same backend entry.  GetTarget and DeleteTarget
    run identically on the two, CreateTarget with the same properties
    writes the same entry, the Type of a request is never stored, and
    ListTargets of [p] lists the target [t2] of project [p-target-t1]
    under the name [t1-target-t2]. *)
Theorem target_paths_overlap :
  forall (S : Type) (v : VaultProvider S) (p t1 t2 : string)
         (props : TargetProperties) (ty ty' : string) (w : World S),
    GetTarget v p (t1 ++ "-target-" ++ t2) w = GetTarget v (p ++ "-target-" ++ t1) t2 w
    /\ DeleteTarget v p (t1 ++ "-target-" ++ t2) w
       = DeleteTarget v (p ++ "-target-" ++ t1) t2 w
    /\ CreateTarget v p {| Name := t1 ++ "-target-" ++ t2; Properties := props;
                           Type_ := ty |} w
       = CreateTarget v (p ++ "-target-" ++ t1)
                      {| Name := t2; Properties := props; Type_ := ty' |} w
    /\ fst (ListTargets
              (provider
                 (canned (Some {| Data := {[ "keys" :=
                                    VList [VString ("argo-cloudops-projects-"
                                                      ++ (p ++ "-target-" ++ t1)
                                                      ++ "-target-" ++ t2)] ]};
                                  Auth := None |}) None)
                 "vault" "admin" "s3cret")
              p (fresh tt))
       = Done (Slice.make [t1 ++ "-target-" ++ t2], None).
Proof.
  intros S v p t1 t2 props ty ty' w. repeat apply conj.
  - apply GetTarget_path, target_path_shift.
  - apply DeleteTarget_path, target_path_shift.
  - apply CreateTarget_path; [apply target_path_shift | reflexivity].
  - replace ("argo-cloudops-projects-" ++ (p ++ "-target-" ++ t1) ++ "-target-" ++ t2)
      with (target_prefix p ++ t1 ++ "-target-" ++ t2)
      by (unfold target_prefix; now rewrite !app_assoc_s).
    rewrite <- (target_names_one p (t1 ++ "-target-" ++ t2)).
    eapply ListTargets_lists; [reflexivity | reflexivity |].
    cbn [Data]. apply lookup_singleton_eq.
Qed.

Lemma Index_char_cons (sep c : ascii) (s : string) :
  strings.Index (String c s) (String sep "")
  = if Ascii.eqb sep c then 0
    else if strings.Index s (String sep "") <? 0 then -1
         else 1 + strings.Index s (String sep "").
Proof.
  change (strings.Index (String c s) (String sep ""))
    with (if strings.HasPrefix (String c s) (String sep "") then 0
          else if strings.Index s (String sep "") <? 0 then -1
               else 1 + strings.Index s (String sep "")).
  change (strings.HasPrefix (String c s) (String sep ""))
    with (if Ascii.eqb sep c then strings.HasPrefix s "" else false).
  rewrite HasPrefix_empty. destruct (Ascii.eqb sep c); reflexivity.
Qed.

Lemma dash_free_cons (c : ascii) (s : string) :
  dash_free (String c s) <-> c <> "-"%char /\ dash_free s.
Proof.
  unfold dash_free, strings.Contains. rewrite Index_char_cons.
  pose proof (Index_lower s "-") as Hl.
  destruct (Ascii.eqb "-" c) eqn:E.
  - apply Ascii.eqb_eq in E. subst c. change (0 <=? 0) with true.
    split; [discriminate | intros [H _]; congruence].
  - apply Ascii.eqb_neq in E.
    destruct (strings.Index s "-" <? 0) eqn:E'.
    + apply Z.ltb_lt in E'. change (0 <=? -1) with false. split.
      * intros _. split; [congruence|]. apply Z.leb_gt. lia.
      * intros _. reflexivity.
    + apply Z.ltb_ge in E'. rewrite !Z.leb_gt. split.
      * intros H. lia.
      * intros [_ H]. lia.
Qed.

(** Two dash-free strings followed by a dash: the cut is at the same
    place. *)
Lemma dash_cut (a b x y : string) :
  dash_free a -> dash_free b ->
  a ++ String "-" x = b ++ String "-" y -> a = b /\ x = y.
Proof.
  revert b. induction a as [|c a IH]; intros [|d b] Ha Hb H.
  - rewrite !append_nil in H. injection H as ->. now split.
  - rewrite append_nil, append_cons in H. injection H as <- _.
    apply dash_free_cons in Hb. now destruct Hb.
  - rewrite append_nil, append_cons in H. injection H as -> _.
    apply dash_free_cons in Ha. now destruct Ha.
  - rewrite !append_cons in H. injection H as -> H.
    apply dash_free_cons in Ha, Hb.
    destruct (IH b (proj2 Ha) (proj2 Hb) H) as [-> ->]. now split.
Qed.

Lemma target_path_inj (p1 p2 t1 t2 : string) :
  dash_free p1 -> dash_free p2 ->
  target_path p1 t1 = target_path p2 t2 -> p1 = p2 /\ t1 = t2.
Proof.
  intros H1 H2 H. unfold target_path in H. apply app_inv_l in H.
  change ("-target-" ++ t1) with (String "-" ("target-" ++ t1)) in H.
  change ("-target-" ++ t2) with (String "-" ("target-" ++ t2)) in H.
  destruct (dash_cut _ _ _ _ H1 H2 H) as [-> Ht]. split; [reflexivity|].
  now apply app_inv_l in Ht.
Qed.

Lemma target_calls {S} (v : VaultProvider S) (p t : string)
      (ctr : CreateTargetRequest) (w : World S) :
  isAdmin v = true ->
  calls (snd (GetTarget v p t w)) = (calls w ++ [CallRead (target_path p t)])%list
  /\ calls (snd (DeleteTarget v p t w)) = (calls w ++ [CallDelete (target_path p t)])%list
  /\ exists data,
      calls (snd (CreateTarget v p ctr w))
      = (calls w ++ [CallWrite (target_path p (Name ctr)) data])%list.
Proof.
  intros Hadm. repeat apply conj.
  - unfold GetTarget. rewrite Hadm. simpl. run_provider; reflexivity.
  - unfold DeleteTarget. rewrite Hadm. simpl. run_provider; reflexivity.
  - eexists. unfold CreateTarget. rewrite Hadm. simpl. run_provider; reflexivity.
Qed.

(** X6. For project names without a dash the backend path does tell targets
    apart: with admin credentials, if GetTarget (or DeleteTarget, or
    CreateTarget) for [(p1, t1)] and for [(p2, t2)] address the backend
    with the same call, then [p1 = p2] and [t1 = t2]. *)
Theorem target_paths_distinct :
  forall (S : Type) (v : VaultProvider S) (p1 p2 t1 t2 : string)
         (ctr1 ctr2 : CreateTargetRequest) (w : World S),
    isAdmin v = true ->
    strings.Contains p1 "-" = false -> strings.Contains p2 "-" = false ->
    (calls (snd (GetTarget v p1 t1 w)) = calls (snd (GetTarget v p2 t2 w)) ->
     p1 = p2 /\ t1 = t2)
    /\ (calls (snd (DeleteTarget v p1 t1 w)) = calls (snd (DeleteTarget v p2 t2 w)) ->
        p1 = p2 /\ t1 = t2)
    /\ (calls (snd (CreateTarget v p1 ctr1 w)) = calls (snd (CreateTarget v p2 ctr2 w)) ->
        p1 = p2 /\ Name ctr1 = Name ctr2).
Proof.
  intros S v p1 p2 t1 t2 ctr1 ctr2 w Hadm H1 H2.
  destruct (target_calls v p1 t1 ctr1 w Hadm) as (G1 & D1 & data1 & C1).
  destruct (target_calls v p2 t2 ctr2 w Hadm) as (G2 & D2 & data2 & C2).
  repeat apply conj.
  - rewrite G1, G2. intros H. apply app_inv_head in H.
    assert (target_path p1 t1 = target_path p2 t2) as Hp by congruence.
    exact (target_path_inj _ _ _ _ H1 H2 Hp).
  - rewrite D1, D2. intros H. apply app_inv_head in H.
    assert (target_path p1 t1 = target_path p2 t2) as Hp by congruence.
    exact (target_path_inj _ _ _ _ H1 H2 Hp).
  - rewrite C1, C2. intros H. apply app_inv_head in H.
    assert (target_path p1 (Name ctr1) = target_path p2 (Name ctr2)) as Hp by congruence.
    exact (target_path_inj _ _ _ _ H1 H2 Hp).
Qed.

Lemma target_paths_distinct_witness :
  calls (snd (GetTarget (provider always_ok "vault" "admin" "s3cret")
                        "proj1" "a" (fresh tt)))
  <> calls (snd (GetTarget (provider always_ok "vault" "admin" "s3cret")
                           "proj2" "a" (fresh tt))).
Proof.
  intros H.
  destruct (proj1 (target_paths_distinct unit
                     (provider always_ok "vault" "admin" "s3cret")
                     "proj1" "proj2" "a" "a" deploy_target deploy_target (fresh tt)
                     eq_refl eq_refl eq_refl) H) as [Hp _].
  discriminate Hp.
Defined.

Lemma target_prefix_inj (p1 p2 k : string) :
  dash_free p1 -> dash_free p2 ->
  strings.HasPrefix k (target_prefix p1) = true ->
  strings.HasPrefix k (target_prefix p2) = true -> p1 = p2.
Proof.
  intros H1 H2 K1 K2. apply HasPrefix_split in K1, K2. rewrite K1 in K2 at 1.
  unfold target_prefix in K2. rewrite !app_assoc_s in K2. apply app_inv_l in K2.
  change ("-target-" ++ strings.from (String.length
            ("argo-cloudops-projects-" ++ p1 ++ "-target-")) k)
    with (String "-" ("target-" ++ strings.from (String.length
            ("argo-cloudops-projects-" ++ p1 ++ "-target-")) k)) in K2.
  change ("-target-" ++ strings.from (String.length
            ("argo-cloudops-projects-" ++ p2 ++ "-target-")) k)
    with (String "-" ("target-" ++ strings.from (String.length
            ("argo-cloudops-projects-" ++ p2 ++ "-target-")) k)) in K2.
  now destruct (dash_cut _ _ _ _ H1 H2 K2).
Qed.

Lemma filter_disjoint_length {A} (f g : A -> bool) (l : list A) :
  (forall x, f x = true -> g x = true -> False) ->
  (length (List.filter f l) + length (List.filter g l) <= length l)%nat.
Proof.
  intros H. induction l as [|x l IH]; simpl; [lia|].
  destruct (f x) eqn:Ef, (g x) eqn:Eg; simpl; try lia.
  exfalso. eauto.
Qed.

(** X7. Two projects with different dash-free names never share a listed key:
    with admin credentials and a successful list of string keys,
    ListTargets of the one and ListTargets of the other draw their names
    from disjoint parts of the key list, so together they are no longer
    than the key list. *)
Theorem ListTargets_keeps_projects_apart :
  forall (S : Type) (v : VaultProvider S) (p1 p2 : string) (w : World S)
         (sc : vault_Secret) (keys : list string) (s' : S),
    isAdmin v = true ->
    strings.Contains p1 "-" = false -> strings.Contains p2 "-" = false -> p1 <> p2 ->
    List (vaultLogicalSvc v) "aws/roles/" (vault w) = ((Some sc, None), s') ->
    Data sc !! "keys" = Some (VList (map VString keys)) ->
    exists l1 l2 : list string,
      fst (ListTargets v p1 w) = Done (Slice.make l1, None)
      /\ fst (ListTargets v p2 w) = Done (Slice.make l2, None)
      /\ (length l1 + length l2 <= length keys)%nat.
Proof.
  intros S v p1 p2 w sc keys s' Hadm H1 H2 Hne HL Hkeys.
  exists (target_names p1 keys), (target_names p2 keys).
  split; [now apply (ListTargets_lists v p1 w sc keys s')|].
  split; [now apply (ListTargets_lists v p2 w sc keys s')|].
  unfold target_names, project_keys. rewrite !length_map.
  apply filter_disjoint_length. intros k K1 K2.
  apply Hne. exact (target_prefix_inj p1 p2 k H1 H2 K1 K2).
Qed.

Lemma ListTargets_keeps_projects_apart_witness :
  exists l1 l2 : list string,
    fst (ListTargets (provider always_ok "vault" "admin" "s3cret") "proj1" (fresh tt))
    = Done (Slice.make l1, None)
    /\ fst (ListTargets (provider always_ok "vault" "admin" "s3cret") "proj2" (fresh tt))
       = Done (Slice.make l2, None)
    /\ (length l1 + length l2
        <= length ["argo-cloudops-projects-proj1-target-a";
                   "argo-cloudops-projects-proj1-target-b";
                   "argo-cloudops-projects-proj2-target-c"])%nat.
Proof.
  refine (ListTargets_keeps_projects_apart unit
            (provider always_ok "vault" "admin" "s3cret") "proj1" "proj2" (fresh tt)
            ok_secret _ tt eq_refl eq_refl eq_refl _ eq_refl _).
  - discriminate.
  - vm_compute. reflexivity.
Defined.

(** ** Backend failures *)

Lemma isAdmin_provider {S} (svc : vault_Client S) (provider_ key secret : string) :
  isAdmin (provider svc provider_ key secret) = String.eqb key "admin".
Proof. reflexivity. Qed.

(** X8. No method swallows a backend failure, and every method stops at the
    first one.  On a backend where every call fails with the same message
    (whatever secret comes with the error), every method that gets past
    its credentials check returns without panic, with a non-nil error
    whose text ends with the backend's message (GetProject,
    ProjectExists, GetTarget, ListTargets and DeleteProject put their own
    context before it; CreateProject, CreateTarget, DeleteTarget and
    GetToken return the backend's error as it is), after exactly one
    backend call. *)
Theorem backend_failure_surfaces :
  forall (sec : option vault_Secret) (msg provider_ key secret : string)
         (A : Type) (op : Op A),
    reaches_backend op key = true ->
    exists (a : A) (e : error) (context : string),
      fst (invoke (provider (canned sec (Some msg)) provider_ key secret) op (fresh tt))
      = Done a
      /\ err_of op a = Some e
      /\ Error e = context ++ msg
      /\ length (calls (snd (invoke (provider (canned sec (Some msg)) provider_ key secret)
                                    op (fresh tt)))) = 1%nat.
Proof.
  intros sec msg provider_ key secret A op Hr.
  destruct op; unfold reaches_backend in Hr; try discriminate Hr;
    try (apply negb_true_iff in Hr);
    unfold invoke;
    [ unfold CreateProject | unfold CreateTarget | unfold DeleteProject
    | unfold DeleteTarget | unfold GetProject | unfold GetTarget | unfold GetToken
    | unfold ListTargets | unfold ProjectExists, GetProject ];
    rewrite ?isAdmin_provider, ?Hr; destruct sec;
    eexists; eexists;
    (first [ exists ""; repeat split; reflexivity
           | eexists; repeat split; reflexivity ]).
Qed.

Lemma backend_failure_surfaces_witness :
  exists (a : TargetProperties * option error) (e : error) (context : string),
    fst (invoke (provider (canned None (Some "connection refused")) "vault" "admin" "s3cret")
                (OpGetTarget "proj1" "deploy") (fresh tt)) = Done a
    /\ err_of (OpGetTarget "proj1" "deploy") a = Some e
    /\ Error e = context ++ "connection refused"
    /\ length (calls (snd (invoke (provider (canned None (Some "connection refused"))
                                            "vault" "admin" "s3cret")
                                  (OpGetTarget "proj1" "deploy") (fresh tt)))) = 1%nat.
Proof.
  exact (backend_failure_surfaces None "connection refused" "vault" "admin" "s3cret"
           _ (OpGetTarget "proj1" "deploy") eq_refl).
Defined.

(** ** Admin classification of a parsed header *)

Lemma NewAuthorization_Some (h : string) (a : Authorization) (e : option error) :
  NewAuthorization h = Done (Some a, e) ->
  h = Provider a ++ ":" ++ Key a ++ ":" ++ Secret a
  /\ Provider a <> "" /\ Key a <> "" /\ Secret a <> ""
  /\ colon_free (Provider a) /\ colon_free (Key a).
Proof.
  rewrite NewAuthorization_segments.
  destruct (existsb _ (segments h)) eqn:E; [discriminate|].
  apply existsb_empty_false in E.
  destruct (segments_cases h)
    as [[Hs _]|[(p & r & Hs & _)|(p & k & s & Hs & Hh & Cp & Ck)]];
    rewrite Hs in *; try discriminate.
  intros [= <- _]. simpl.
  repeat split; try assumption; intros ->; apply E; simpl; auto.
Qed.

Lemma colon_cut (a b x y : string) :
  colon_free a -> colon_free b -> a ++ ":" ++ x = b ++ ":" ++ y -> a = b /\ x = y.
Proof.
  intros Ha Hb H.
  assert (String.length a = String.length b) as Hl.
  { apply Nat2Z.inj. rewrite <- (Index_colon_app a x Ha), <- (Index_colon_app b y Hb).
    now rewrite H. }
  assert (a = b) as ->.
  { rewrite <- (upto_app a (":" ++ x)), H, Hl. apply upto_app. }
  split; [reflexivity|]. apply app_inv_l in H. now apply (app_inv_l ":").
Qed.

(** X9. Parsing and admin classification together.  For an Authorization
    parsed from a header, [AuthorizedAdmin] with a given admin secret
    holds exactly when the header is ["<provider>:admin:<admin secret>"],
    the secret being everything after the second colon; [IsAdmin] holds
    exactly when the header's second segment is ["admin"].  As a parsed
    secret is never empty, an empty admin secret authorizes no header. *)
Theorem parsed_admin :
  forall (h : string) (a : Authorization) (adminSecret : string),
    NewAuthorization h = Done (Some a, None) ->
    (AuthorizedAdmin a adminSecret = true
     <-> h = Provider a ++ ":admin:" ++ adminSecret)
    /\ (IsAdmin a = true <-> h = Provider a ++ ":admin:" ++ Secret a)
    /\ AuthorizedAdmin a "" = false.
Proof.
  intros h a adminSecret H.
  destruct (NewAuthorization_Some h a None H) as (Hh & Hp & Hk & Hs & Cp & Ck).
  assert (forall x, h = Provider a ++ ":admin:" ++ x <-> Key a = "admin" /\ Secret a = x)
    as Hx.
  { intros x. split.
    - intros Hh'. rewrite Hh in Hh'. apply app_inv_l in Hh'.
      change (":admin:" ++ x) with (":" ++ "admin" ++ ":" ++ x) in Hh'.
      apply (app_inv_l ":") in Hh'.
      apply (colon_cut (Key a) "admin" (Secret a) x Ck eq_refl) in Hh'. exact Hh'.
    - intros [Hka Hsx]. rewrite Hh, Hka, Hsx. reflexivity. }
  unfold AuthorizedAdmin, IsAdmin. split; [|split].
  - rewrite Hx, andb_true_iff, !String.eqb_eq. tauto.
  - rewrite Hx, String.eqb_eq. tauto.
  - apply andb_false_iff. right. now apply String.eqb_neq.
Qed.

Lemma parsed_admin_witness :
  AuthorizedAdmin {| Provider := "vault"; Key := "admin"; Secret := "s3:cret" |} "s3:cret"
  = true
  /\ AuthorizedAdmin {| Provider := "vault"; Key := "admin"; Secret := "s3:cret" |} ""
     = false.
Proof.
  pose proof (parsed_admin "vault:admin:s3:cret"
                {| Provider := "vault"; Key := "admin"; Secret := "s3:cret" |}
                "s3:cret" eq_refl) as H.
  split.
  - apply (proj1 H). reflexivity.
  - exact (proj2 (proj2 H)).
Defined.

(** ** Malformed answers *)

(** X10. When the backend answers CreateProject's identifier requests with a
    secret that lacks the identifier (the field is missing or is not a
    string), CreateProject panics on the type assertion, with everything
    written so far left in place: without a [secret_id] string it stops
    after the policy write, the identity write and the forced [secret-id]
    write, and never reads the roleID; without a [role_id] string it has
    made all four calls.  It never returns an empty identifier in place
    of a missing one. *)
Theorem CreateProject_missing_identifier :
  forall (S : Type) (v : VaultProvider S) (name : string) (w : World S)
         (sec2 : option vault_Secret) (sec3 sec4 : vault_Secret) (s1 s2 s3 s4 : S),
    isAdmin v = true ->
    PutPolicy (vaultSysSvc v) (project_policy_name name)
              (policy_stanza (target_roles_pattern name) "read") (vault w) = (None, s1) ->
    Write (vaultLogicalSvc v) (project_identity_path name) (identity_parameters name) s1
    = ((sec2, None), s2) ->
    Write (vaultLogicalSvc v) (project_identity_path name ++ "/secret-id")
          {[ "force" := VBool true ]} s2 = ((Some sec3, None), s3) ->
    Read (vaultLogicalSvc v) (project_identity_path name ++ "/role-id") s3
    = ((Some sec4, None), s4) ->
    ((forall x, Data sec3 !! "secret_id" <> Some (VString x)) ->
     CreateProject v name w
     = (Panic TypeAssertion, after w s3 (firstn 3 (CreateProject_steps name))))
    /\ (forall secretID,
           Data sec3 !! "secret_id" = Some (VString secretID) ->
           (forall x, Data sec4 !! "role_id" <> Some (VString x)) ->
           CreateProject v name w
           = (Panic TypeAssertion, after w s4 (CreateProject_steps name))).
Proof.
  intros S v name w sec2 sec3 sec4 s1 s2 s3 s4 Hadm H1 H2 H3 H4.
  rewrite <- defaultVaultReadonlyPolicyAWS_stanza in H1.
  change (project_policy_name name) with (vaultProjectPrefix ++ "-" ++ name) in H1.
  change (project_identity_path name) with (genProjectAppRole name) in H2, H3, H4.
  change (identity_parameters name)
    with ({[ "secret_id_ttl" := VString vaultSecretTTL;
             "token_max_ttl" := VString vaultTokenMaxTTL;
             "token_no_default_policy" := VString "true";
             "token_num_uses" := VInt vaultTokenNumUses;
             "token_policies" := VString (vaultProjectPrefix ++ "-" ++ name) ]}
          : gmap string value) in H2.
  split.
  - intros Hno. unfold CreateProject. rewrite Hadm.
    unfold createPolicyState, writeProjectState, readSecretID, readRoleID,
      logical_Write, logical_Read, sys_PutPolicy, bind, ret, throw, lift, from_api, issue.
    simpl. rewrite H1. simpl. rewrite H2. simpl. rewrite H3. simpl.
    unfold map_index.
    destruct (Data sec3 !! "secret_id") as [[| | |x| |]|] eqn:E; simpl;
      try finish_run.
    exfalso. now apply (Hno x).
  - intros secretID Hsid Hno. unfold CreateProject. rewrite Hadm.
    unfold createPolicyState, writeProjectState, readSecretID, readRoleID,
      logical_Write, logical_Read, sys_PutPolicy, bind, ret, throw, lift, from_api, issue.
    simpl. rewrite H1. simpl. rewrite H2. simpl. rewrite H3. simpl.
    unfold map_index. rewrite Hsid. simpl. rewrite H4. simpl.
    destruct (Data sec4 !! "role_id") as [[| | |x| |]|] eqn:E; simpl;
      try finish_run.
    exfalso. now apply (Hno x).
Qed.

Lemma CreateProject_missing_identifier_witness :
  CreateProject (provider (canned (Some target_secret) None) "vault" "admin" "s3cret")
                "proj1" (fresh tt)
  = (Panic TypeAssertion, after (fresh tt) tt (firstn 3 (CreateProject_steps "proj1"))).
Proof.
  refine (proj1 (CreateProject_missing_identifier unit
                   (provider (canned (Some target_secret) None) "vault" "admin" "s3cret")
                   "proj1" (fresh tt) (Some target_secret) target_secret target_secret
                   tt tt tt tt eq_refl eq_refl eq_refl eq_refl eq_refl) _).
  intros x. vm_compute. discriminate.
Defined.

(** X11. The other answers of the backend list, with admin credentials.  A
    backend error gives a nil sequence and the error wrapped as
    ["vault list error: <message>"], whatever secret comes with it.  A
    secret whose [keys] field is missing or is not a list, or holds one
    element that is not a string, makes ListTargets panic on the type
    assertion, also when other keys of the list match the project.
    Whatever the project, the one backend call is the list of
    ["aws/roles/"]: every listing reads the roles of all projects. *)
Theorem ListTargets_other_answers :
  forall (S : Type) (v : VaultProvider S) (project : string) (w : World S)
         (sec : option vault_Secret) (err : option string) (s' : S),
    isAdmin v = true ->
    List (vaultLogicalSvc v) "aws/roles/" (vault w) = ((sec, err), s') ->
    snd (ListTargets v project w) = after w s' [CallList "aws/roles/"]
    /\ (forall msg, err = Some msg ->
          fst (ListTargets v project w)
          = Done (Slice.nil_slice, Some (errors_New ("vault list error: " ++ msg))))
    /\ (forall sc, err = None -> sec = Some sc ->
          (forall l, Data sc !! "keys" <> Some (VList l)) ->
          fst (ListTargets v project w) = Panic TypeAssertion)
    /\ (forall sc l x, err = None -> sec = Some sc ->
          Data sc !! "keys" = Some (VList l) -> In x l -> (forall s, x <> VString s) ->
          fst (ListTargets v project w) = Panic TypeAssertion).
Proof.
  intros S v project w sec err s' Hadm HL.
  unfold ListTargets. rewrite Hadm.
  unfold logical_List, bind, issue, ret, throw, lift, from_api. simpl.
  rewrite HL. unfold after. repeat apply conj.
  - destruct sec as [sc|], err as [msg|]; simpl; try reflexivity.
    destruct (assert_slice (map_index (Data sc) "keys")); simpl; [|reflexivity].
    destruct (ListTargets_loop _ _ _); reflexivity.
  - intros msg ->. destruct sec; reflexivity.
  - intros sc -> -> Hno. simpl. unfold map_index.
    destruct (Data sc !! "keys") as [[| | | | |l]|] eqn:E; try reflexivity.
    now destruct (Hno l).
  - intros sc l x -> -> Hl Hin Hx. simpl. unfold map_index. rewrite Hl. simpl.
    rewrite (ListTargets_loop_bad_key project l (Slice.make [])); [reflexivity|].
    now exists x.
Qed.

Lemma ListTargets_other_answers_witness :
  fst (ListTargets (provider untouchable "vault" "admin" "s3cret") "proj1" (fresh tt))
  = Done (Slice.nil_slice, Some (errors_New "vault list error: backend touched"))
  /\ fst (ListTargets (provider (canned (Some target_secret) None)
                                "vault" "admin" "s3cret") "proj1" (fresh tt))
     = Panic TypeAssertion.
Proof.
  split.
  - exact (proj1 (proj2 (ListTargets_other_answers unit
                           (provider untouchable "vault" "admin" "s3cret") "proj1"
                           (fresh tt) None (Some "backend touched") tt eq_refl eq_refl))
                 "backend touched" eq_refl).
  - refine (proj1 (proj2 (proj2 (ListTargets_other_answers unit
                           (provider (canned (Some target_secret) None)
                                     "vault" "admin" "s3cret") "proj1"
                           (fresh tt) (Some target_secret) None tt eq_refl eq_refl)))
                  target_secret eq_refl eq_refl _).
    intros l. vm_compute. discriminate.
Defined.

(** ** A target's life on a key-value store *)

Lemma CreateTarget_kv (store : gmap string value -> gmap string value)
      (a : Authorization) (p : string) (ctr : CreateTargetRequest) (w : World kv_state) :
  Key a = "admin" ->
  exists data,
    CreateTarget (fst (NewVaultProvider (kv_client store) a)) p ctr w
    = (Done None,
       after w {| entries := <[target_path p (Name ctr) := store data]> (entries (vault w));
                  policies := policies (vault w) |}
             [CallWrite (target_path p (Name ctr)) data]).
Proof.
  intros Hk. eexists. unfold CreateTarget.
  rewrite isAdmin_NewVaultProvider. unfold IsAdmin. rewrite Hk. reflexivity.
Qed.

Lemma DeleteTarget_kv (store : gmap string value -> gmap string value)
      (a : Authorization) (p t : string) (w : World kv_state) :
  Key a = "admin" ->
  DeleteTarget (fst (NewVaultProvider (kv_client store) a)) p t w
  = (Done None,
     after w {| entries := delete (target_path p t) (entries (vault w));
                policies := policies (vault w) |}
           [CallDelete (target_path p t)]).
Proof.
  intros Hk. unfold DeleteTarget.
  rewrite isAdmin_NewVaultProvider. unfold IsAdmin. rewrite Hk. reflexivity.
Qed.

Lemma GetTarget_kv_absent (store : gmap string value -> gmap string value)
      (a : Authorization) (p t : string) (w : World kv_state) :
  Key a = "admin" ->
  entries (vault w) !! target_path p t = None ->
  fst (GetTarget (fst (NewVaultProvider (kv_client store) a)) p t w)
  = Done ({| CredentialType := ""; PolicyArns := Slice.nil_slice; RoleArn := "" |},
          Some (errors_New "target not found")).
Proof.
  intros Hk Habs. unfold GetTarget.
  rewrite isAdmin_NewVaultProvider. unfold IsAdmin. rewrite Hk.
  unfold logical_Read, bind, issue, ret, from_api. simpl.
  fold (target_path p t). rewrite Habs. reflexivity.
Qed.

(** X12. CreateTarget, DeleteTarget and GetTarget address the same entry.  On
    a key-value store (whatever form it keeps the written data in) and
    with admin credentials: after CreateTarget and DeleteTarget of the
    same project and name, GetTarget reports the target as not found, the
    store holds what it held before without that entry, and a second
    DeleteTarget succeeds as the first did: deleting an absent target is
    not an error. *)
Theorem target_lifecycle :
  forall (store : gmap string value -> gmap string value) (a : Authorization)
         (p : string) (ctr : CreateTargetRequest) (w : World kv_state),
    Key a = "admin" ->
    let v := fst (NewVaultProvider (kv_client store) a) in
    let w1 := snd (CreateTarget v p ctr w) in
    let w2 := snd (DeleteTarget v p (Name ctr) w1) in
    fst (CreateTarget v p ctr w) = Done None
    /\ fst (DeleteTarget v p (Name ctr) w1) = Done None
    /\ fst (GetTarget v p (Name ctr) w2)
       = Done ({| CredentialType := ""; PolicyArns := Slice.nil_slice; RoleArn := "" |},
               Some (errors_New "target not found"))
    /\ entries (vault w2)
       = delete ("aws/roles/argo-cloudops-projects-" ++ p ++ "-target-" ++ Name ctr)
                (entries (vault w))
    /\ policies (vault w2) = policies (vault w)
    /\ fst (DeleteTarget v p (Name ctr) w2) = Done None
    /\ vault (snd (DeleteTarget v p (Name ctr) w2)) = vault w2.
Proof.
  intros store a p ctr w Hk v w1 w2. subst v w1 w2.
  destruct (CreateTarget_kv store a p ctr w Hk) as [data HC].
  rewrite HC. cbn [fst snd]. rewrite !(DeleteTarget_kv store a p _ _ Hk). cbn [fst snd].
  fold (target_path p (Name ctr)).
  repeat apply conj; try reflexivity.
  - apply GetTarget_kv_absent; [exact Hk|]. simpl. apply lookup_delete_eq.
  - simpl. apply delete_insert_eq.
  - simpl. f_equal. rewrite delete_insert_eq. apply delete_delete_eq.
Qed.

Lemma target_lifecycle_witness :
  fst (GetTarget (provider aws_roles "vault" "admin" "s3cret") "proj1" "deploy"
         (snd (DeleteTarget (provider aws_roles "vault" "admin" "s3cret") "proj1" "deploy"
                 (snd (CreateTarget (provider aws_roles "vault" "admin" "s3cret")
                                    "proj1" deploy_target (fresh empty_kv))))))
  = Done ({| CredentialType := ""; PolicyArns := Slice.nil_slice; RoleArn := "" |},
          Some (errors_New "target not found")).
Proof.
  exact (proj1 (proj2 (proj2 (target_lifecycle _
                  {| Provider := "vault"; Key := "admin"; Secret := "s3cret" |}
                  "proj1" deploy_target (fresh empty_kv) eq_refl)))).
Defined.

Lemma target_path_prefix (p t : string) :
  target_path p t = "aws/roles/" ++ target_prefix p ++ t.
Proof. unfold target_path, target_prefix. now rewrite !app_assoc_s. Qed.

Lemma kv_List_present (store : gmap string value -> gmap string value)
      (s : kv_state) (path key : string) :
  is_Some (entries s !! (path ++ key)) ->
  exists keys,
    List (Logical (kv_client store)) path s
    = ((Some {| Data := {[ "keys" := VList (map VString keys) ]}; Auth := None |}, None), s)
    /\ In key keys.
Proof.
  intros [d Hd]. simpl.
  set (found := List.filter (fun k => strings.HasPrefix k path)
                            (map fst (map_to_list (entries s)))).
  assert (In (path ++ key) found) as Hin.
  { apply filter_In. split; [|apply HasPrefix_app].
    apply (in_map fst _ (path ++ key, d)). apply list_elem_of_In.
    now apply elem_of_map_to_list. }
  exists (map (strings.from (String.length path)) found). split.
  - destruct found as [|k found']; [destruct Hin|].
    rewrite map_map. reflexivity.
  - rewrite <- (from_app path key). now apply in_map.
Qed.

(** X13. A target written by CreateTarget is listed by ListTargets.  On a
    key-value store and with admin credentials, ListTargets of the project
    right after CreateTarget succeeds with a sequence that holds the name
    of the target just created. *)
Theorem created_target_is_listed :
  forall (store : gmap string value -> gmap string value) (a : Authorization)
         (p : string) (ctr : CreateTargetRequest) (w : World kv_state),
    Key a = "admin" ->
    exists l : list string,
      fst (ListTargets (fst (NewVaultProvider (kv_client store) a)) p
             (snd (CreateTarget (fst (NewVaultProvider (kv_client store) a)) p ctr w)))
      = Done (Slice.make l, None)
      /\ In (Name ctr) l.
Proof.
  intros store a p ctr w Hk.
  destruct (CreateTarget_kv store a p ctr w Hk) as [data HC]. rewrite HC. cbn [snd].
  set (w1 := after w _ _).
  assert (is_Some (entries (vault w1) !! ("aws/roles/" ++ target_prefix p ++ Name ctr)))
    as Hpresent.
  { subst w1. simpl. rewrite <- target_path_prefix, lookup_insert_eq. eauto. }
  destruct (kv_List_present store (vault w1) "aws/roles/" _ Hpresent) as (keys & HL & Hin).
  exists (target_names p keys). split.
  - eapply ListTargets_lists; [|exact HL|apply lookup_singleton_eq].
    rewrite isAdmin_NewVaultProvider. unfold IsAdmin. now rewrite Hk.
  - unfold target_names, project_keys.
    rewrite <- (from_app (target_prefix p) (Name ctr)). apply in_map.
    apply filter_In. split; [exact Hin | apply HasPrefix_app].
Qed.

Lemma created_target_is_listed_witness :
  exists l : list string,
    fst (ListTargets (provider aws_roles "vault" "admin" "s3cret") "proj1"
           (snd (CreateTarget (provider aws_roles "vault" "admin" "s3cret")
                              "proj1" deploy_target (fresh empty_kv))))
    = Done (Slice.make l, None)
    /\ In "deploy" l.
Proof.
  exact (created_target_is_listed _
           {| Provider := "vault"; Key := "admin"; Secret := "s3cret" |}
           "proj1" deploy_target (fresh empty_kv) eq_refl).
Defined.

(** ** Credential classes *)

(** X14. The two classes of credentials exclude each other and leave nothing
    out.  For every provider, whatever the backend and the world, GetToken
    is refused exactly when the guarded methods are let through: a
    provider that may administer (CreateProject, CreateTarget,
    DeleteProject, DeleteTarget, GetTarget, ListTargets) can never
    exchange its credentials for a token, and a provider that may
    exchange them is refused by each of those methods.  GetProject,
    ProjectExists and TargetExists are refused to no one. *)
Theorem credential_classes :
  forall (S : Type) (v : VaultProvider S) (A : Type) (op : Op A) (w w' : World S),
    (admin_gated op = true ->
     denied op (invoke v op w) = negb (denied OpGetToken (invoke v OpGetToken w')))
    /\ (admin_gated op = false -> uses_secret op = false ->
        denied op (invoke v op w) = false).
Proof.
  intros S v A op w w'. rewrite !denied_branch. unfold permission_branch. split.
  - intros ->. reflexivity.
  - intros -> Hs. destruct op; try reflexivity. discriminate Hs.
Qed.

Lemma credential_classes_witness :
  denied (OpListTargets "proj1")
         (invoke (provider always_ok "vault" "role-1" "secret-1")
                 (OpListTargets "proj1") (fresh tt))
  = negb (denied OpGetToken
                 (invoke (provider always_ok "vault" "role-1" "secret-1")
                         OpGetToken (fresh tt)))
  /\ denied (OpProjectExists "proj1")
            (invoke (provider always_ok "vault" "role-1" "secret-1")
                    (OpProjectExists "proj1") (fresh tt)) = false.
Proof.
  split.
  - exact (proj1 (credential_classes unit (provider always_ok "vault" "role-1" "secret-1")
                    _ (OpListTargets "proj1") (fresh tt) (fresh tt)) eq_refl).
  - exact (proj2 (credential_classes unit (provider always_ok "vault" "role-1" "secret-1")
                    _ (OpProjectExists "proj1") (fresh tt) (fresh tt)) eq_refl eq_refl).
Defined.

(** ** The policy and the roles it names *)

Lemma CreateProject_first_call {S} (v : VaultProvider S) (name : string) (w : World S) :
  isAdmin v = true ->
  exists rest,
    calls (snd (CreateProject v name w))
    = (calls w ++ CallPutPolicy (vaultProjectPrefix ++ "-" ++ name)
                                (defaultVaultReadonlyPolicyAWS name) :: rest)%list.
Proof.
  intros Hadm.
  unfold CreateProject, createPolicyState, writeProjectState, readSecretID, readRoleID.
  rewrite Hadm. simpl.
  unfold logical_Read, logical_Write, sys_PutPolicy, bind, issue, ret, throw, lift,
    from_api.
  simpl.
  repeat (first [call_backend | break_inner]; simpl;
          try (eexists; rewrite <- ?app_assoc; reflexivity)).
Qed.

(** X15. The policy CreateProject writes and the roles CreateTarget writes go
    together: with admin credentials, the first backend call of
    CreateProject puts, under the project's policy name, the one stanza
    that grants [read] on ["aws/sts/" ++ prefix ++ "*"], and CreateTarget
    for the same project writes the role ["aws/roles/" ++ prefix ++ name],
    with the same [prefix = "argo-cloudops-projects-<project>-target-"],
    which is also the prefix ListTargets filters on. *)
Theorem policy_names_target_roles :
  forall (S : Type) (v : VaultProvider S) (project : string)
         (ctr : CreateTargetRequest) (w w' : World S),
    isAdmin v = true ->
    exists (prefix : string) (rest : list Call) (data : gmap string value),
      prefix = "argo-cloudops-projects-" ++ project ++ "-target-"
      /\ calls (snd (CreateProject v project w))
         = (calls w ++ CallPutPolicy ("argo-cloudops-projects-" ++ project)
                                     (policy_stanza ("aws/sts/" ++ prefix ++ "*") "read")
                    :: rest)%list
      /\ calls (snd (CreateTarget v project ctr w'))
         = (calls w' ++ [CallWrite ("aws/roles/" ++ prefix ++ Name ctr) data])%list
      /\ (forall key : string,
             strings.HasPrefix key prefix = true ->
             ListTargets_loop project (Slice.make []) [VString key]
             = Done (Slice.make [strings.from (String.length prefix) key])).
Proof.
  intros S v project ctr w w' Hadm.
  destruct (CreateProject_first_call v project w Hadm) as [rest HP].
  destruct (target_calls v project "" ctr w' Hadm) as (_ & _ & data & HC).
  exists (target_prefix project), rest, data. repeat apply conj.
  - reflexivity.
  - rewrite HP, defaultVaultReadonlyPolicyAWS_stanza. unfold target_roles_pattern,
      target_prefix. now rewrite !app_assoc_s.
  - rewrite HC, target_path_prefix. reflexivity.
  - intros key Hkey. rewrite ListTargets_loop_cons, Hkey, (Replace_prefix _ _ Hkey).
    reflexivity.
Qed.

Lemma policy_names_target_roles_witness :
  exists (prefix : string) (rest : list Call) (data : gmap string value),
    prefix = "argo-cloudops-projects-" ++ "proj1" ++ "-target-"
    /\ calls (snd (CreateProject (provider always_ok "vault" "admin" "s3cret")
                                 "proj1" (fresh tt)))
       = ([] ++ CallPutPolicy ("argo-cloudops-projects-" ++ "proj1")
                              (policy_stanza ("aws/sts/" ++ prefix ++ "*") "read")
             :: rest)%list
    /\ calls (snd (CreateTarget (provider always_ok "vault" "admin" "s3cret")
                                "proj1" deploy_target (fresh tt)))
       = ([] ++ [CallWrite ("aws/roles/" ++ prefix ++ "deploy") data])%list
    /\ (forall key : string,
           strings.HasPrefix key prefix = true ->
           ListTargets_loop "proj1" (Slice.make []) [VString key]
           = Done (Slice.make [strings.from (String.length prefix) key])).
Proof.
  exact (policy_names_target_roles unit (provider always_ok "vault" "admin" "s3cret")
           "proj1" deploy_target (fresh tt) (fresh tt) eq_refl).
Defined.
